(** * Hyperliquid position monitor: change detection and fill de-duplication

    A shallow embedding of [hyperliquid_monitor.py] (class
    [HyperliquidMonitor]) together with the properties its specification
    states about it.

    - Python [float] values are binary64 numbers: the kernel's primitive
      floats ([PrimFloat]), whose operations are the IEEE-754 ones.
    - Python [dict]s iterate in insertion order, so the position dictionaries
      are association lists with the insertion discipline of [dict] written
      out ([dict_set]).
    - The set of fill identifiers is a finite set of strings ([gset string]).
    - An exception is an explicit outcome: [float()] of a string that is not a
      number raises [ValueError], which leaves [check_positions] and
      [run_check] half-way. *)

From Stdlib Require Import ZArith String Ascii List Floats Lia Bool.
From stdpp Require Import base option list strings gmap pretty.
Import ListNotations.

Local Open Scope string_scope.
Local Open Scope Z_scope.
Local Open Scope list_scope.

(* Decimal literals such as 0.0001 denote the nearest binary64 number. *)
Set Warnings "-inexact-float".

(** ** Strings *)

Module Str.

(** The newline character of the Python literals ([\n]). *)
Definition nl : string := String (ascii_of_nat 10) EmptyString.

Definition is_upper (c : ascii) : bool :=
  (65 <=? nat_of_ascii c)%nat && (nat_of_ascii c <=? 90)%nat.

Definition is_lower (c : ascii) : bool :=
  (97 <=? nat_of_ascii c)%nat && (nat_of_ascii c <=? 122)%nat.

Definition upper_char (c : ascii) : ascii :=
  if is_lower c then ascii_of_nat (nat_of_ascii c - 32) else c.

Definition lower_char (c : ascii) : ascii :=
  if is_upper c then ascii_of_nat (nat_of_ascii c + 32) else c.

Fixpoint map_chars (f : ascii -> ascii) (s : string) : string :=
  match s with
  | EmptyString => EmptyString
  | String c r => String (f c) (map_chars f r)
  end.

(** [s.upper()] and [s.lower()], on the ASCII letters. *)
Definition upper : string -> string := map_chars upper_char.
Definition lower : string -> string := map_chars lower_char.

(** [s[:n]]: the first [n] characters, the whole string when it is shorter. *)
Fixpoint prefix (n : nat) (s : string) : string :=
  match n, s with
  | S k, String c r => String c (prefix k r)
  | _, _ => EmptyString
  end.

Fixpoint drop_chars (n : nat) (s : string) : string :=
  match n, s with
  | S k, String _ r => drop_chars k r
  | _, _ => s
  end.

(** [s[-n:]] for [n > 0]: the last [n] characters, the whole string when it
    is shorter. *)
Definition suffix (n : nat) (s : string) : string :=
  drop_chars (String.length s - n) s.

End Str.

(** ** Numbers: Python's [float] *)

Module PyFloat.

(** Python's [str.isspace] on the ASCII range: tab to carriage return, the
    four separators 28 to 31, and the space. *)
Definition is_space (c : ascii) : bool :=
  let n := nat_of_ascii c in
  ((9 <=? n) && (n <=? 13) || (28 <=? n) && (n <=? 32))%nat.

Definition is_digit (c : ascii) : bool :=
  let n := nat_of_ascii c in ((48 <=? n) && (n <=? 57))%nat.

Definition digit_value (c : ascii) : Z := Z.of_nat (nat_of_ascii c) - 48.

Fixpoint lstrip (l : list ascii) : list ascii :=
  match l with
  | c :: r => if is_space c then lstrip r else l
  | [] => []
  end.

Definition strip (l : list ascii) : list ascii :=
  rev (lstrip (rev (lstrip l))).

(** An underscore is accepted between two digits only, and ignored there. *)
Fixpoint drop_underscores (prev_digit : bool) (l : list ascii)
  : option (list ascii) :=
  match l with
  | [] => Some []
  | c :: r =>
      if Ascii.eqb c "_" then
        match r with
        | d :: _ =>
            if prev_digit && is_digit d then drop_underscores false r
            else None
        | [] => None
        end
      else
        match drop_underscores (is_digit c) r with
        | Some r' => Some (c :: r')
        | None => None
        end
  end.

(** The leading run of digits: its value, its length, and what follows. *)
Fixpoint digits (acc : Z) (n : Z) (l : list ascii) : Z * Z * list ascii :=
  match l with
  | c :: r => if is_digit c then digits (10 * acc + digit_value c) (n + 1) r
              else (acc, n, l)
  | [] => (acc, n, [])
  end.

Definition sign (l : list ascii) : bool * list ascii :=
  match l with
  | c :: r => if Ascii.eqb c "-" then (true, r)
              else if Ascii.eqb c "+" then (false, r)
              else (false, l)
  | [] => (false, [])
  end.

(** The optional exponent part [e[+-]ddd]; [None] when it is malformed. *)
Definition exponent (l : list ascii) : option Z :=
  match l with
  | [] => Some 0
  | c :: r =>
      if Ascii.eqb (Str.lower_char c) "e" then
        let '(neg, r1) := sign r in
        let '(x, n, r2) := digits 0 0 r1 in
        match r2 with
        | [] => if n =? 0 then None else Some (if neg then - x else x)
        | _ :: _ => None
        end
      else None
  end.

(** [neg * num / den], rounded to the nearest binary64 number, ties to even. *)
Definition of_ratio (neg : bool) (num : Z) (den : positive) : float :=
  match num with
  | Zpos p =>
      SF2Prim (SFdiv prec emax (S754_finite neg p 0) (S754_finite false den 0))
  | _ => if neg then neg_zero else zero
  end.

Definition of_decimal (neg : bool) (m : Z) (e10 : Z) : float :=
  match e10 with
  | Zneg k => of_ratio neg m (Z.to_pos (10 ^ Zpos k))
  | _ => of_ratio neg (m * 10 ^ e10) 1
  end.

(** [float(s)] for a string [s]; [None] is the [ValueError] that Python
    raises when [s] is not the text of a number. *)
Definition of_string (s : string) : option float :=
  match drop_underscores false (strip (list_ascii_of_string s)) with
  | None => None
  | Some l =>
      let '(neg, body) := sign l in
      let word := string_of_list_ascii (map Str.lower_char body) in
      if String.eqb word "inf" || String.eqb word "infinity" then
        Some (if neg then neg_infinity else infinity)
      else if String.eqb word "nan" then Some nan
      else
        let '(ip, ni, r1) := digits 0 0 body in
        let '(m, nf, r2) :=
          match r1 with
          | c :: r => if Ascii.eqb c "." then digits ip 0 r else (ip, 0, r1)
          | [] => (ip, 0, [])
          end in
        if ni + nf =? 0 then None
        else
          match exponent r2 with
          | Some x => Some (of_decimal neg m (x - nf))
          | None => None
          end
  end.

End PyFloat.

(** ** Data model *)

(** The [leverage] entry of a position, a dictionary whose [value] is read. *)
Record leverage_info := { leverage_value : option Z }.

(** A position of the account, [assetPositions[i]['position']] of the user
    state. Only [coin] is read with a subscript; every other field is read
    with [.get] and may be absent. *)
Record position := {
  coin : string;
  szi : option string;
  entryPx : option string;
  leverage : option leverage_info;
  positionValue : option string;
  unrealizedPnl : option string
}.

(** The user state returned by [info.user_state]: [assetPositions] is [None]
    when the dictionary has no such key. *)
Record user_state := { assetPositions : option (list position) }.

(** A JSON scalar used as trade identifier: a number or a string. *)
Inductive pyval :=
| PInt (z : Z)
| PStr (s : string).

(** One executed trade; every field is read with [.get]. *)
Record fill := {
  fill_coin : option string;
  side : option string;
  px : option string;
  sz : option string;
  fee : option string;
  time : option Z;
  tid : option pyval
}.

(** Python dictionaries keyed by strings, in insertion order. *)
Definition dict (V : Type) : Type := list (string * V).

Section Dict.
Context {V : Type}.

(** [d.get(k)] *)
Fixpoint dict_get (k : string) (d : dict V) : option V :=
  match d with
  | [] => None
  | (k', v) :: r => if String.eqb k k' then Some v else dict_get k r
  end.

(** [k in d] *)
Definition dict_mem (k : string) (d : dict V) : bool :=
  match dict_get k d with Some _ => true | None => false end.

(** [d[k] = v]: a key already there keeps its place and takes the new
    value, a new key goes last. *)
Fixpoint dict_set (k : string) (v : V) (d : dict V) : dict V :=
  match d with
  | [] => [(k, v)]
  | (k', v') :: r =>
      if String.eqb k k' then (k, v) :: r else (k', v') :: dict_set k v r
  end.

Definition keys (d : dict V) : list string := map fst d.
End Dict.

(** The fields of a [HyperliquidMonitor] object that the checks read and
    write. *)
Record monitor := {
  address : string;
  previous_positions : dict position;
  previous_fills_ids : gset string;
  is_first_run : bool
}.

(** The state set up by [__init__]. *)
Definition init (addr : string) : monitor :=
  {| address := addr; previous_positions := []; previous_fills_ids := ∅;
     is_first_run := true |}.

(** The text of a message. An f-string is kept as the sequence of its parts:
    the text it spells out, with the strings it interpolates, and the values
    whose text is made outside this program, namely a float printed by
    [repr], the time of a fill printed by
    [datetime.fromtimestamp(ms / 1000).strftime(...)], and the clock read by
    [datetime.now().strftime(...)]. The time of a fill is taken to be one
    that [fromtimestamp] accepts, as the epoch milliseconds of a trade are. *)
Inductive piece :=
| Text (s : string)
| Repr (x : float)
| LocalTime (ms : Z)
| Now.

Definition message : Type := list piece.

(** What a poll emits. Each constructor is one [notifier.send_message] call
    of the source with its [message], together with the [logger.info] line
    that follows it. [Failed] is the last message of [start], about the
    [ValueError] that [float()] raised on [text]. *)
Inductive event :=
| Opened (c : string) (msg : message)
| Modified (c : string) (old_size new_size : float) (msg : message)
| Closed (c : string) (msg : message)
| NewFill (t : string) (msg : message)
| Started (msg : message)
| Failed (text : string).

(** How a call ends: it returns, or [float()] raised [ValueError] on the
    given text. *)
Inductive outcome :=
| Done
| Raised (text : string).

(** [abs(old_size - new_size) > 0.0001] *)
Definition EPSILON : float := 0.0001%float.

Definition size_changed (old_size new_size : float) : bool :=
  (EPSILON <? abs (old_size - new_size))%float.

(** [float(position.get('szi', 0))] *)
Definition position_size (p : position) : string + float :=
  match szi p with
  | Some s => match PyFloat.of_string s with Some x => inr x | None => inl s end
  | None => inr 0%float
  end.

(** [current_positions[coin] = position['position']] over [assetPositions]. *)
Definition build_positions (l : list position) : dict position :=
  fold_left (fun d p => dict_set (coin p) p d) l [].

(** Truth value and [str()] of a trade identifier. *)
Definition truthy (v : pyval) : bool :=
  match v with
  | PInt z => negb (z =? 0)
  | PStr s => negb (String.eqb s "")
  end.

Definition py_str (v : pyval) : string :=
  match v with
  | PInt z => pretty z
  | PStr s => s
  end.

(** [str(fill.get('tid', ''))], the identifier the notification loop tests. *)
Definition fill_id (f : fill) : string :=
  match tid f with Some t => py_str t | None => "" end.

(** The set [current_fill_ids] built by the first loop of [check_fills]. *)
Definition add_fill_id (ids : gset string) (f : fill) : gset string :=
  match tid f with
  | Some t => if truthy t then ids ∪ {[ py_str t ]} else ids
  | None => ids
  end.

Definition current_fill_ids (fills : list fill) : gset string :=
  fold_left add_fill_id fills ∅.

(** ** The monitor *)

(** The two closing lines of every message: the abbreviated address and the
    time. *)
Definition footer (addr : string) (time_text : piece) : message :=
  [ Text (Str.nl +:+ "<b>Address:</b> <code>" +:+ Str.prefix 8 addr +:+ "..."
          +:+ Str.suffix 6 addr +:+ "</code>");
    Text (Str.nl +:+ "<b>Time:</b> "); time_text ].

(** [format_position_message(coin, position, action)]: the message, or the
    text on which [float(size)] raised. *)
Definition format_position_message (addr : string) (c : string)
    (p : position) (action : string) : string + message :=
  let leverage_text :=
    match leverage p with
    | Some lv => match leverage_value lv with Some v => pretty v | None => "N/A" end
    | None => "N/A"
    end in
  let size := default "N/A" (szi p) in
  let entry_px := default "N/A" (entryPx p) in
  let position_value := default "N/A" (positionValue p) in
  let unrealized_pnl := default "N/A" (unrealizedPnl p) in
  match PyFloat.of_string size with
  | None => inl size
  | Some x =>
      let side_text :=
        if (0 <? x)%float then "LONG"
        else if (x <? 0)%float then "SHORT" else "NEUTRAL" in
      inr ([ Text ("üîî <b>Position " +:+ Str.upper action +:+ "</b>" +:+ Str.nl +:+ Str.nl);
             Text ("<b>Asset:</b> " +:+ c +:+ Str.nl);
             Text ("<b>Side:</b> " +:+ side_text +:+ Str.nl);
             Text "<b>Size:</b> "; Repr (abs x); Text Str.nl;
             Text ("<b>Entry Price:</b> $" +:+ entry_px +:+ Str.nl);
             Text ("<b>Leverage:</b> " +:+ leverage_text +:+ "x" +:+ Str.nl);
             Text ("<b>Position Value:</b> $" +:+ position_value +:+ Str.nl);
             Text ("<b>Unrealized PnL:</b> $" +:+ unrealized_pnl +:+ Str.nl) ]
           ++ footer addr Now)
  end.

(** [format_fill_message(fill)] *)
Definition format_fill_message (addr : string) (f : fill) : message :=
  let coin_text := default "N/A" (fill_coin f) in
  let side_text := default "N/A" (side f) in
  let px_text := default "N/A" (px f) in
  let sz_text := default "N/A" (sz f) in
  let fee_text := default "N/A" (fee f) in
  let time_ms := default 0 (time f) in
  let tid_text := match tid f with Some t => py_str t | None => "N/A" end in
  let emoji :=
    if String.eqb (Str.lower side_text) "buy" then "üü¢" else "üî¥" in
  [ Text (emoji +:+ " <b>NEW TRADE</b>" +:+ Str.nl +:+ Str.nl);
    Text ("<b>Asset:</b> " +:+ coin_text +:+ Str.nl);
    Text ("<b>Side:</b> " +:+ Str.upper side_text +:+ Str.nl);
    Text ("<b>Price:</b> $" +:+ px_text +:+ Str.nl);
    Text ("<b>Size:</b> " +:+ sz_text +:+ Str.nl);
    Text ("<b>Fee:</b> $" +:+ fee_text +:+ Str.nl);
    Text ("<b>Trade ID:</b> <code>" +:+ tid_text +:+ "</code>" +:+ Str.nl) ]
  ++ footer addr (LocalTime time_ms).

(** The message built in place for a closed position. *)
Definition closed_message (addr : string) (c : string)
    (old_position : position) : message :=
  [ Text ("üîµ <b>Position CLOSED</b>" +:+ Str.nl +:+ Str.nl);
    Text ("<b>Asset:</b> " +:+ c +:+ Str.nl);
    Text ("<b>Previous Size:</b> " +:+ default "N/A" (szi old_position) +:+ Str.nl) ]
  ++ footer addr Now.

(** The body of the first loop of [check_positions] for one item of
    [current_positions]: the events it emits, or the text on which [float()]
    raised. *)
Definition check_current (addr : string) (previous : dict position)
    (item : string * position) : string + list event :=
  let '(c, p) := item in
  match dict_get c previous with
  | None =>
      match format_position_message addr c p "opened" with
      | inr msg => inr [Opened c msg]
      | inl bad => inl bad
      end
  | Some old_position =>
      match position_size old_position with
      | inl bad => inl bad
      | inr old_size =>
          match position_size p with
          | inl bad => inl bad
          | inr new_size =>
              if size_changed old_size new_size then
                match format_position_message addr c p "modified" with
                | inr msg => inr [Modified c old_size new_size msg]
                | inl bad => inl bad
                end
              else inr []
          end
      end
  end.

(** The first loop: it stops at the first exception, after the events
    already emitted. *)
Fixpoint scan_current (addr : string) (previous : dict position)
    (items : dict position) : list event * outcome :=
  match items with
  | [] => ([], Done)
  | item :: rest =>
      match check_current addr previous item with
      | inl bad => ([], Raised bad)
      | inr evs =>
          let '(evs', o) := scan_current addr previous rest in
          (evs ++ evs', o)
      end
  end.

(** The second loop, over the items of [previous_positions]. *)
Definition check_closed (addr : string) (current : dict position)
    (item : string * position) : list event :=
  let '(c, old_position) := item in
  if dict_mem c current then []
  else [Closed c (closed_message addr c old_position)].

Definition scan_closed (addr : string) (current previous : dict position)
  : list event :=
  flat_map (check_closed addr current) previous.

Definition set_previous_positions (m : monitor) (d : dict position) : monitor :=
  {| address := address m; previous_positions := d;
     previous_fills_ids := previous_fills_ids m;
     is_first_run := is_first_run m |}.

Definition set_previous_fills_ids (m : monitor) (ids : gset string) : monitor :=
  {| address := address m; previous_positions := previous_positions m;
     previous_fills_ids := ids; is_first_run := is_first_run m |}.

Definition set_is_first_run (m : monitor) (b : bool) : monitor :=
  {| address := address m; previous_positions := previous_positions m;
     previous_fills_ids := previous_fills_ids m; is_first_run := b |}.

(** [check_positions(current_state)] *)
Definition check_positions (m : monitor) (st : user_state)
  : monitor * list event * outcome :=
  match assetPositions st with
  | None => (m, [], Done)
  | Some l =>
      let current_positions := build_positions l in
      if is_first_run m then
        (set_previous_positions m current_positions, [], Done)
      else
        match scan_current (address m) (previous_positions m) current_positions with
        | (evs, Raised bad) => (m, evs, Raised bad)
        | (evs, Done) =>
            (set_previous_positions m current_positions,
             evs ++ scan_closed (address m) current_positions (previous_positions m),
             Done)
        end
  end.

(** The notification loop of [check_fills], for one fill. *)
Definition notify_fill (addr : string) (new_fill_ids : gset string) (f : fill)
  : list event :=
  if decide (fill_id f ∈ new_fill_ids)
  then [NewFill (fill_id f) (format_fill_message addr f)] else [].

(** [check_fills(current_fills)] *)
Definition check_fills (m : monitor) (current_fills : list fill)
  : monitor * list event :=
  match current_fills with
  | [] => (m, [])
  | _ :: _ =>
      let ids := current_fill_ids current_fills in
      if is_first_run m then (set_previous_fills_ids m ids, [])
      else
        let new_fill_ids := ids ∖ previous_fills_ids m in
        (set_previous_fills_ids m ids,
         if decide (new_fill_ids = ∅) then []
         else flat_map (notify_fill (address m) new_fill_ids) current_fills)
  end.

Definition started_message (addr : string) : message :=
  [ Text ("‚úÖ <b>Monitoring Started</b>" +:+ Str.nl +:+ Str.nl);
    Text ("Now monitoring address:" +:+ Str.nl
          +:+ "<code>" +:+ addr +:+ "</code>" +:+ Str.nl +:+ Str.nl);
    Text ("You will receive notifications for:" +:+ Str.nl);
    Text ("‚Ä¢ New positions opened" +:+ Str.nl);
    Text ("‚Ä¢ Positions closed" +:+ Str.nl);
    Text ("‚Ä¢ Position size changes" +:+ Str.nl);
    Text "‚Ä¢ New trades executed" ].

(** [run_check()]. The two fetches are its inputs: [None] is what
    [get_user_state] and [get_user_fills] return when the request raised.
    A user state is false as a condition when it is an empty dictionary,
    which has no [assetPositions] either, and an empty list of fills is
    false: both are inputs on which the check returns at once. *)
Definition run_check (m : monitor)
    (fetched_state : option user_state) (fetched_fills : option (list fill))
  : monitor * list event * outcome :=
  let '(m1, evs1, o1) :=
    match fetched_state with
    | Some st => check_positions m st
    | None => (m, [], Done)
    end in
  match o1 with
  | Raised bad => (m1, evs1, Raised bad)
  | Done =>
      let '(m2, evs2) :=
        match fetched_fills with
        | Some fills => check_fills m1 fills
        | None => (m1, [])
        end in
      if is_first_run m2 then
        (set_is_first_run m2 false,
         evs1 ++ evs2 ++ [Started (started_message (address m2))], Done)
      else (m2, evs1 ++ evs2, Done)
  end.

(** [start()], over the polls that happen while the process runs, each with
    what its two fetches return: the loop goes on after a check that returns
    and ends, with a last message, at the first check that raises. *)
Fixpoint start (m : monitor)
    (polls : list (option user_state * option (list fill)))
  : monitor * list event * outcome :=
  match polls with
  | [] => (m, [], Done)
  | (fetched_state, fetched_fills) :: rest =>
      match run_check m fetched_state fetched_fills with
      | (m', evs, Done) =>
          let '(m'', evs', o) := start m' rest in (m'', evs ++ evs', o)
      | (m', evs, Raised bad) => (m', evs ++ [Failed bad], Raised bad)
      end
  end.


(** ** Reading the events of a check *)

(** The coin of a position event. *)
Definition event_coin (e : event) : option string :=
  match e with
  | Opened c _ | Modified c _ _ _ | Closed c _ => Some c
  | _ => None
  end.

Definition coins (evs : list event) : list string := omap event_coin evs.

Definition on_coin (c : string) (e : event) : bool :=
  match event_coin e with Some c' => String.eqb c c' | None => false end.

Definition is_change (e : event) : bool :=
  match e with Opened _ _ | Modified _ _ _ _ => true | _ => false end.

Definition is_closed (e : event) : bool :=
  match e with Closed _ _ => true | _ => false end.

Definition is_new_fill (e : event) : bool :=
  match e with NewFill _ _ => true | _ => false end.

(** The order the specification asks of the events of a position check:
    no [Closed] event before an [Opened] or [Modified] one, and the coins of
    each of the two groups in ascending order. *)
Fixpoint ascending (l : list string) : bool :=
  match l with
  | a :: r => match r with b :: _ => String.leb a b | [] => true end && ascending r
  | [] => true
  end.

Fixpoint closed_last (evs : list event) : bool :=
  match evs with
  | e :: r => if is_closed e then forallb is_closed r else closed_last r
  | [] => true
  end.

Definition ordered_by_symbol (evs : list event) : bool :=
  closed_last evs
  && ascending (coins (List.filter is_change evs))
  && ascending (coins (List.filter is_closed evs)).

(** The event of a notified fill. *)
Definition fill_event (addr : string) (f : fill) : event :=
  NewFill (fill_id f) (format_fill_message addr f).

Definition is_started (e : event) : bool :=
  match e with Started _ => true | _ => false end.

Definition is_failed (e : event) : bool :=
  match e with Failed _ => true | _ => false end.

(** An event of [check_positions]. *)
Definition is_position_event (e : event) : bool := is_change e || is_closed e.

(** The [Closed] event of an item of [previous_positions]. *)
Definition closed_event (addr : string) (item : string * position) : event :=
  Closed item.1 (closed_message addr item.1 item.2).

(** ** Start-up *)

(** What [main] builds the notifier and the monitor from, and the interval
    it passes to [start]. *)
Record settings := {
  monitored_address : string;
  bot_token : string;
  chat_id : string;
  use_testnet : bool;
  check_interval : Z
}.

(** How [main] goes on after reading the environment: [int()] raised
    [ValueError] on the text of the interval, or an error was logged and
    [sys.exit] called, or the monitor is built and started. *)
Inductive startup :=
| InvalidInterval (text : string)
| Exit (status : Z) (logged : string)
| Monitor (s : settings).

Section Main.

(** Python's [int()] on a string; [None] is its [ValueError]. *)
Variable py_int : string -> option Z.

(** [main()], up to the call of [monitor.start]; [environ] is the process
    environment that [os.getenv] reads. *)
Definition main (environ : gmap string string) : startup :=
  let ADDRESS :=
    default "0xcb58b8f5ec6d47985f0728465c25a08ef9ad2c7b"
      (environ !! "HYPERLIQUID_ADDRESS") in
  let TELEGRAM_BOT_TOKEN := environ !! "TELEGRAM_BOT_TOKEN" in
  let TELEGRAM_CHAT_ID := environ !! "TELEGRAM_CHAT_ID" in
  let USE_TESTNET :=
    String.eqb (Str.lower (default "false" (environ !! "USE_TESTNET"))) "true" in
  match py_int (default "300" (environ !! "CHECK_INTERVAL")) with
  | None => InvalidInterval (default "300" (environ !! "CHECK_INTERVAL"))
  | Some CHECK_INTERVAL =>
      match TELEGRAM_BOT_TOKEN with
      | None | Some "" =>
          Exit 1 "TELEGRAM_BOT_TOKEN environment variable not set"
      | Some token =>
          match TELEGRAM_CHAT_ID with
          | None | Some "" =>
              Exit 1 "TELEGRAM_CHAT_ID environment variable not set"
          | Some chat =>
              Monitor {| monitored_address := ADDRESS; bot_token := token;
                         chat_id := chat; use_testnet := USE_TESTNET;
                         check_interval := CHECK_INTERVAL |}
          end
      end
  end.

End Main.

(** ** Sample data

    The address is the default one of [main]; the positions and fills carry
    the fields the examples of the specification give. *)
Module Sample.

Definition addr : string := "0xcb58b8f5ec6d47985f0728465c25a08ef9ad2c7b".

(** A position with a size and nothing else. *)
Definition pos (c size : string) : position :=
  {| coin := c; szi := Some size; entryPx := None; leverage := None;
     positionValue := None; unrealizedPnl := None |}.

(** A position without its [szi] entry. *)
Definition unsized (c : string) : position :=
  {| coin := c; szi := None; entryPx := Some "43000.0";
     leverage := Some {| leverage_value := Some 20 |};
     positionValue := Some "64500.0"; unrealizedPnl := Some "12.5" |}.

(** A fill with an identifier and nothing else. *)
Definition trade (t : Z) : fill :=
  {| fill_coin := None; side := None; px := None; sz := None; fee := None;
     time := None; tid := Some (PInt t) |}.

(** A monitor after its first check. *)
Definition steady (d : dict position) (ids : gset string) : monitor :=
  {| address := addr; previous_positions := d; previous_fills_ids := ids;
     is_first_run := false |}.

Definition state_of (l : list position) : user_state :=
  {| assetPositions := Some l |}.

(** [int()] on the texts of the examples: decimal digits after an optional
    sign. *)
Definition decimal_int (s : string) : option Z :=
  let '(neg, body) := PyFloat.sign (list_ascii_of_string s) in
  let '(n, len, rest) := PyFloat.digits 0 0 body in
  match rest with
  | [] => if len =? 0 then None else Some (if neg then - n else n)
  | _ :: _ => None
  end.

End Sample.

(** * Properties *)

(** ** Floats *)

(** [float()] on the texts of the examples: decimal texts give the nearest
    binary64 number, blanks and digit-group underscores are accepted, and a
    text that is not a number raises. *)
Lemma float_of_string_examples :
  PyFloat.of_string "1.5" = Some 1.5%float
  ∧ PyFloat.of_string "1.50005" = Some 1.50005%float
  ∧ PyFloat.of_string "0.0001" = Some EPSILON
  ∧ PyFloat.of_string " -1_0.25e-3 " = Some (-0.01025)%float
  ∧ PyFloat.of_string "1e400" = Some infinity
  ∧ PyFloat.of_string "N/A" = None
  ∧ PyFloat.of_string "" = None.
Proof. split_and!; vm_compute; reflexivity. Qed.

(** A number is never further than [EPSILON] from itself: the difference is
    zero, or not a number when the size is infinite or not a number. *)
Lemma size_changed_same (x : float) : size_changed x x = false.
Proof.
  unfold size_changed.
  rewrite ltb_spec, abs_spec, sub_spec.
  destruct (Prim2SF x) as [s | s | | s m e];
    try reflexivity; try (destruct s; reflexivity).
  unfold SF64sub, SFsub. cbv zeta. rewrite Z.sub_diag. reflexivity.
Qed.

(** ** Dictionaries *)

Section DictFacts.
Context {V : Type}.
Implicit Types (d : dict V) (k : string) (v : V).

Lemma dict_get_set_eq k v d : dict_get k (dict_set k v d) = Some v.
Proof.
  induction d as [|[k' v'] d IH]; simpl.
  - by rewrite String.eqb_refl.
  - destruct (String.eqb_spec k k') as [->|Hne]; simpl.
    + by rewrite String.eqb_refl.
    + destruct (String.eqb_spec k k'); [done|]. exact IH.
Qed.

Lemma dict_get_set_ne k k' v d :
  k ≠ k' → dict_get k' (dict_set k v d) = dict_get k' d.
Proof.
  intros Hne. induction d as [|[k0 v0] d IH]; simpl.
  - destruct (String.eqb_spec k' k); [congruence|done].
  - destruct (String.eqb_spec k k0) as [->|Hne0]; simpl.
    + destruct (String.eqb_spec k' k0); [congruence|done].
    + destruct (String.eqb_spec k' k0); [done|]. exact IH.
Qed.

Lemma dict_get_None k d : dict_get k d = None ↔ k ∉ keys d.
Proof.
  unfold keys. induction d as [|[k' v'] d IH]; simpl.
  - split; [intros _; apply not_elem_of_nil | done].
  - rewrite not_elem_of_cons.
    destruct (String.eqb_spec k k') as [->|Hne].
    + split; [done | by intros [? _]].
    + rewrite IH. split; [done | by intros [_ ?]].
Qed.

Lemma dict_get_Some_keys k v d : dict_get k d = Some v → k ∈ keys d.
Proof.
  intros H. destruct (decide (k ∈ keys d)) as [|Hn]; [done|].
  apply dict_get_None in Hn. congruence.
Qed.

Lemma dict_mem_true k d : dict_mem k d = true ↔ k ∈ keys d.
Proof.
  unfold dict_mem. destruct (dict_get k d) eqn:E.
  - split; [intros _; by eapply dict_get_Some_keys | done].
  - apply dict_get_None in E. split; [done | intros; contradiction].
Qed.

Lemma dict_mem_false k d : dict_mem k d = false ↔ dict_get k d = None.
Proof. unfold dict_mem. destruct (dict_get k d); naive_solver. Qed.

(** In a dictionary each key has one item, the one [dict_get] finds. *)
Lemma dict_get_item k v d :
  NoDup (keys d) → (k, v) ∈ d → dict_get k d = Some v.
Proof.
  unfold keys. induction d as [|[k' v'] d IH]; simpl; intros Hnd Hin.
  - by apply elem_of_nil in Hin.
  - apply NoDup_cons in Hnd as [Hk' Hnd].
    apply elem_of_cons in Hin as [Heq|Hin].
    + inversion Heq; subst. by rewrite String.eqb_refl.
    + destruct (String.eqb_spec k k') as [->|Hne]; [|by apply IH].
      exfalso. apply Hk'. apply list_elem_of_fmap. by exists (k', v).
Qed.

Lemma dict_item_get k v d : dict_get k d = Some v → (k, v) ∈ d.
Proof.
  induction d as [|[k' v'] d IH]; simpl; [done|].
  destruct (String.eqb_spec k k') as [->|Hne].
  - intros [= ->]. apply elem_of_cons. by left.
  - intros H. apply elem_of_cons. right. by apply IH.
Qed.

Lemma keys_dict_set k v d :
  keys (dict_set k v d) = if dict_mem k d then keys d else keys d ++ [k].
Proof.
  unfold keys, dict_mem. induction d as [|[k' v'] d IH]; simpl; [done|].
  destruct (String.eqb_spec k k') as [->|Hne]; simpl; [done|].
  rewrite IH. by destruct (dict_get k d).
Qed.

Lemma NoDup_keys_dict_set k v d :
  NoDup (keys d) → NoDup (keys (dict_set k v d)).
Proof.
  intros Hnd. rewrite keys_dict_set.
  destruct (dict_mem k d) eqn:E; [done|].
  apply NoDup_app. split_and!; [done| |apply NoDup_singleton].
  intros x Hx Hx'. apply list_elem_of_singleton in Hx' as ->.
  apply dict_mem_true in Hx. congruence.
Qed.
End DictFacts.

Lemma NoDup_keys_fold (l : list position) (d : dict position) :
  NoDup (keys d) →
  NoDup (keys (fold_left (fun d p => dict_set (coin p) p d) l d)).
Proof.
  revert d. induction l as [|p l IH]; simpl; intros d Hd; [done|].
  apply IH. by apply NoDup_keys_dict_set.
Qed.

Lemma keys_fold_sublist (l : list position) (d : dict position) :
  ∃ ks, keys (fold_left (fun d p => dict_set (coin p) p d) l d) = keys d ++ ks
        ∧ ks `sublist_of` map coin l.
Proof.
  revert d. induction l as [|p l IH]; simpl; intros d.
  - exists []. by rewrite app_nil_r.
  - destruct (IH (dict_set (coin p) p d)) as (ks & -> & Hks).
    rewrite keys_dict_set. destruct (dict_mem (coin p) d).
    + exists ks. split; [done|]. by apply sublist_cons.
    + exists (coin p :: ks). rewrite <- app_assoc. split; [done|].
      by apply sublist_skip.
Qed.

(** The keys of [current_positions] come in the order of [assetPositions]. *)
Lemma keys_build_positions_sublist (l : list position) :
  keys (build_positions l) `sublist_of` map coin l.
Proof.
  destruct (keys_fold_sublist l []) as (ks & H & Hks).
  unfold build_positions. by rewrite H.
Qed.

(** The keys of [current_positions] are pairwise different. *)
Lemma NoDup_keys_build_positions (l : list position) :
  NoDup (keys (build_positions l)).
Proof. apply NoDup_keys_fold. apply NoDup_nil_2. Qed.

(** ** The two loops of [check_positions] *)

Lemma check_current_coin addr previous c p evs :
  check_current addr previous (c, p) = inr evs →
  Forall (fun e => is_change e = true ∧ event_coin e = Some c) evs
  ∧ (length evs ≤ 1)%nat.
Proof.
  unfold check_current. intros H.
  repeat match type of H with
         | context [match ?x with _ => _ end] => destruct x
         end; simplify_eq; simpl; split; repeat constructor.
Qed.

Lemma filter_on_coin_same c evs :
  Forall (fun e => is_change e = true ∧ event_coin e = Some c) evs →
  List.filter (on_coin c) evs = evs.
Proof.
  induction 1 as [|e evs [_ He] _ IH]; simpl; [done|].
  unfold on_coin at 1. rewrite He, String.eqb_refl. by rewrite IH.
Qed.

Lemma filter_on_coin_other c c' evs :
  c ≠ c' →
  Forall (fun e => is_change e = true ∧ event_coin e = Some c') evs →
  List.filter (on_coin c) evs = [].
Proof.
  intros Hne. induction 1 as [|e evs [_ He] _ IH]; simpl; [done|].
  unfold on_coin at 1. rewrite He.
  by destruct (String.eqb_spec c c') as [?|_].
Qed.

(** The events of the first loop are [Opened] and [Modified] events, in the
    order of the items of [current_positions], whether or not it raises. *)
Lemma scan_current_changes addr previous items :
  Forall (fun e => is_change e = true) (scan_current addr previous items).1
  ∧ coins (scan_current addr previous items).1 `sublist_of` keys items.
Proof.
  induction items as [|[c p] items [IH1 IH2]]; cbn [scan_current].
  - split; [constructor | apply sublist_nil].
  - destruct (check_current addr previous (c, p)) as [bad|evs] eqn:E.
    + split; [constructor | apply sublist_nil_l].
    + destruct (scan_current addr previous items) as [evs' o].
      cbn [fst keys map] in *.
      apply check_current_coin in E as [Hevs Hlen].
      split.
      * apply Forall_app. split; [|done].
        eapply Forall_impl; [exact Hevs|]. by intros e [? _].
      * unfold coins. rewrite omap_app.
        destruct evs as [|e [|? ?]]; simpl in *; [by apply sublist_cons| |lia].
        apply Forall_cons in Hevs as [[_ He] _]. rewrite He. simpl.
        by apply sublist_skip.
Qed.

(** What the first loop emits about one coin when it does not raise. *)
Lemma scan_current_on_coin addr previous items evs c :
  NoDup (keys items) →
  scan_current addr previous items = (evs, Done) →
  match dict_get c items with
  | Some p => check_current addr previous (c, p) = inr (List.filter (on_coin c) evs)
  | None => List.filter (on_coin c) evs = []
  end.
Proof.
  revert evs.
  induction items as [|[c' p'] items IH]; cbn [scan_current dict_get keys map fst];
    intros evs Hnd H.
  - by simplify_eq.
  - apply NoDup_cons in Hnd as [Hc' Hnd].
    destruct (check_current addr previous (c', p')) as [bad|evs0] eqn:E; [done|].
    destruct (scan_current addr previous items) as [evs' o] eqn:E'.
    simplify_eq. specialize (IH evs' Hnd eq_refl).
    pose proof (check_current_coin _ _ _ _ _ E) as [Hevs0 _].
    rewrite List.filter_app.
    destruct (String.eqb_spec c c') as [->|Hne].
    + apply dict_get_None in Hc'. rewrite Hc' in IH.
      rewrite IH, app_nil_r, filter_on_coin_same by done. exact E.
    + rewrite (filter_on_coin_other c c') by done. exact IH.
Qed.

(** The events of the second loop are [Closed] events, in the order of the
    items of [previous_positions]. *)
Lemma scan_closed_closed addr current previous :
  Forall (fun e => is_closed e = true) (scan_closed addr current previous)
  ∧ coins (scan_closed addr current previous) `sublist_of` keys previous.
Proof.
  unfold scan_closed.
  induction previous as [|[c old] previous [IH1 IH2]]; simpl.
  - split; [constructor | apply sublist_nil].
  - destruct (dict_mem c current); simpl.
    + split; [done | by apply sublist_cons].
    + split; [by constructor | by apply sublist_skip].
Qed.

Lemma scan_closed_on_coin addr current previous c :
  NoDup (keys previous) →
  List.filter (on_coin c) (scan_closed addr current previous) =
  match dict_get c previous with
  | Some old =>
      if dict_mem c current then []
      else [Closed c (closed_message addr c old)]
  | None => []
  end.
Proof.
  unfold scan_closed.
  induction previous as [|[c' old'] previous IH]; simpl; intros Hnd; [done|].
  apply NoDup_cons in Hnd as [Hc' Hnd]. rewrite List.filter_app, IH by done.
  destruct (String.eqb_spec c c') as [->|Hne].
  - apply dict_get_None in Hc'. rewrite Hc', app_nil_r.
    destruct (dict_mem c' current); simpl; [done|].
    unfold on_coin. simpl. by rewrite String.eqb_refl.
  - destruct (dict_mem c' current); simpl; [done|].
    unfold on_coin at 1. simpl. by destruct (String.eqb_spec c c').
Qed.

Lemma filter_all {A} (f : A → bool) (l : list A) :
  Forall (fun x => f x = true) l → List.filter f l = l.
Proof. induction 1 as [|x l Hx _ IH]; simpl; [done|]. by rewrite Hx, IH. Qed.

Lemma filter_none {A} (f : A → bool) (l : list A) :
  Forall (fun x => f x = false) l → List.filter f l = [].
Proof. induction 1 as [|x l Hx _ IH]; simpl; [done|]. by rewrite Hx. Qed.

Lemma is_change_not_closed e : is_change e = true → is_closed e = false.
Proof. by destruct e. Qed.

Lemma is_closed_not_change e : is_closed e = true → is_change e = false.
Proof. by destruct e. Qed.

(** The events of a position check: those of the first loop, then, when it
    did not raise, those of the second. *)
Lemma check_positions_events m l :
  ∃ changes closed,
    (check_positions m {| assetPositions := Some l |}).1.2 = changes ++ closed
    ∧ Forall (fun e => is_change e = true) changes
    ∧ Forall (fun e => is_closed e = true) closed
    ∧ coins changes `sublist_of` keys (build_positions l)
    ∧ coins closed `sublist_of` keys (previous_positions m).
Proof.
  unfold check_positions. cbn [assetPositions].
  destruct (is_first_run m).
  { exists [], []. split_and!; try done; apply sublist_nil_l. }
  pose proof (scan_current_changes (address m) (previous_positions m)
                (build_positions l)) as [H1 H2].
  destruct (scan_current _ _ _) as [evs [|bad]]; cbn [fst snd] in *.
  - pose proof (scan_closed_closed (address m) (build_positions l)
                  (previous_positions m)) as [H3 H4].
    by exists evs, (scan_closed (address m) (build_positions l) (previous_positions m)).
  - exists evs, []. rewrite app_nil_r. split_and!; try done. apply sublist_nil_l.
Qed.

(** A position check after the first one that returns has run both loops
    and stored the current positions. *)
Lemma check_positions_Done m l m' evs :
  is_first_run m = false →
  check_positions m {| assetPositions := Some l |} = (m', evs, Done) →
  ∃ changes,
    scan_current (address m) (previous_positions m) (build_positions l)
    = (changes, Done)
    ∧ evs = changes
            ++ scan_closed (address m) (build_positions l) (previous_positions m)
    ∧ m' = set_previous_positions m (build_positions l).
Proof.
  intros Hfirst. unfold check_positions. cbn [assetPositions]. rewrite Hfirst.
  destruct (scan_current _ _ _) as [evs0 [|bad]]; [|done].
  intros [= <- <-]. by exists evs0.
Qed.

(** The second loop says nothing about a coin that is still there. *)
Lemma scan_closed_on_coin_present addr current previous c :
  dict_mem c current = true →
  List.filter (on_coin c) (scan_closed addr current previous) = [].
Proof.
  intros Hc. unfold scan_closed.
  induction previous as [|[c' old'] previous IH]; simpl; [done|].
  rewrite List.filter_app, IH, app_nil_r.
  destruct (dict_mem c' current) eqn:E; simpl; [done|].
  unfold on_coin. simpl. destruct (String.eqb_spec c c'); [congruence|done].
Qed.

(** ** Order of the position events *)

(** C3, as stated, fails: with no previous position and the current
    positions ETH then BTC, both opened, the check emits [Opened "ETH"] and
    then [Opened "BTC"], which is not the ascending order of the symbols. *)
Lemma symbol_order_counterexample :
  coins (check_positions (Sample.steady [] ∅)
           (Sample.state_of [Sample.pos "ETH" "1.0"; Sample.pos "BTC" "1.0"])).1.2
  = ["ETH"; "BTC"]
  ∧ ordered_by_symbol
      (check_positions (Sample.steady [] ∅)
         (Sample.state_of [Sample.pos "ETH" "1.0"; Sample.pos "BTC" "1.0"])).1.2
    = false.
Proof. split; vm_compute; reflexivity. Qed.

(** C3, amended: the events of a position check are the [Opened] and
    [Modified] events followed by the [Closed] events; the coins of the first
    group follow the order of the items of [current_positions] (the order in
    which the coins first occur in [assetPositions]), and those of the second
    group the order of the items of [previous_positions]. No sorting by
    symbol takes place. *)
Theorem position_events_follow_dictionary_order (m : monitor) (l : list position) :
  let evs := (check_positions m {| assetPositions := Some l |}).1.2 in
  evs = List.filter is_change evs ++ List.filter is_closed evs
  ∧ coins (List.filter is_change evs) `sublist_of` keys (build_positions l)
  ∧ coins (List.filter is_closed evs) `sublist_of` keys (previous_positions m)
  ∧ keys (build_positions l) `sublist_of` map coin l.
Proof.
  cbv zeta.
  destruct (check_positions_events m l) as (changes & closed & -> & H1 & H2 & H3 & H4).
  assert (List.filter is_change (changes ++ closed) = changes) as ->.
  { rewrite List.filter_app, (filter_all _ _ H1), filter_none, app_nil_r; [done|].
    eapply Forall_impl; [exact H2 | apply is_closed_not_change]. }
  assert (List.filter is_closed (changes ++ closed) = closed) as ->.
  { rewrite List.filter_app, (filter_all _ _ H2), filter_none; [done|].
    eapply Forall_impl; [exact H1 | apply is_change_not_closed]. }
  split_and!; [done..|apply keys_build_positions_sublist].
Qed.

(** ** Modified positions *)

(** C6: on a check after the first one that returns, a coin of both
    [previous_positions] and [current_positions] gets one [Modified] event
    when [abs(old_size - new_size) > 0.0001], and none otherwise. *)
Theorem modified_iff_size_changed (m m' : monitor) (l : list position)
    (evs : list event) (c : string) (old_position p : position) :
  is_first_run m = false →
  check_positions m {| assetPositions := Some l |} = (m', evs, Done) →
  dict_get c (previous_positions m) = Some old_position →
  dict_get c (build_positions l) = Some p →
  ∃ old_size new_size,
    position_size old_position = inr old_size
    ∧ position_size p = inr new_size
    ∧ if size_changed old_size new_size then
        ∃ msg, format_position_message (address m) c p "modified" = inr msg
               ∧ List.filter (on_coin c) evs = [Modified c old_size new_size msg]
      else List.filter (on_coin c) evs = [].
Proof.
  intros Hfirst Hrun Hold Hnew.
  destruct (check_positions_Done m l m' evs Hfirst Hrun)
    as (changes & Hscan & -> & _).
  pose proof (scan_current_on_coin _ _ _ _ c
                (NoDup_keys_build_positions l) Hscan) as Hch.
  rewrite Hnew in Hch.
  rewrite List.filter_app, scan_closed_on_coin_present, app_nil_r
    by (unfold dict_mem; by rewrite Hnew).
  unfold check_current in Hch. rewrite Hold in Hch.
  destruct (position_size old_position) as [|old_size]; [done|].
  destruct (position_size p) as [|new_size]; [done|].
  exists old_size, new_size. split_and!; try done.
  destruct (size_changed old_size new_size).
  - destruct (format_position_message _ _ _ _) as [|msg]; [done|].
    exists msg. by simplify_eq.
  - by simplify_eq.
Qed.

(** The second example of the specification: from size 1.50000 to 1.5002 the
    check emits one [Modified] event. *)
Lemma modified_iff_size_changed_witness :
  ∃ old_size new_size,
    position_size (Sample.pos "BTC" "1.50000") = inr old_size
    ∧ position_size (Sample.pos "BTC" "1.5002") = inr new_size
    ∧ if size_changed old_size new_size then
        ∃ msg, format_position_message Sample.addr "BTC"
                 (Sample.pos "BTC" "1.5002") "modified" = inr msg
               ∧ List.filter (on_coin "BTC")
                   (check_positions
                      (Sample.steady [("BTC", Sample.pos "BTC" "1.50000")] ∅)
                      (Sample.state_of [Sample.pos "BTC" "1.5002"])).1.2
                 = [Modified "BTC" old_size new_size msg]
      else List.filter (on_coin "BTC")
             (check_positions
                (Sample.steady [("BTC", Sample.pos "BTC" "1.50000")] ∅)
                (Sample.state_of [Sample.pos "BTC" "1.5002"])).1.2 = [].
Proof.
  eapply (modified_iff_size_changed
            (Sample.steady [("BTC", Sample.pos "BTC" "1.50000")] ∅)
            (Sample.steady [("BTC", Sample.pos "BTC" "1.5002")] ∅)
            [Sample.pos "BTC" "1.5002"]).
  - reflexivity.
  - vm_compute. reflexivity.
  - reflexivity.
  - reflexivity.
Defined.

(** The two examples of the specification, evaluated: a change of 0.00005
    emits nothing, a change of 0.0002 emits one [Modified] event. *)
Lemma modified_tolerance_examples :
  (check_positions (Sample.steady [("BTC", Sample.pos "BTC" "1.50000")] ∅)
     (Sample.state_of [Sample.pos "BTC" "1.50005"])).1.2 = []
  ∧ ∃ msg,
      (check_positions (Sample.steady [("BTC", Sample.pos "BTC" "1.50000")] ∅)
         (Sample.state_of [Sample.pos "BTC" "1.5002"])).1.2
      = [Modified "BTC" 1.5 1.5002 msg].
Proof. split; [|eexists]; vm_compute; reflexivity. Qed.

(** ** Closed positions *)

(** C8: on a check after the first one that returns, a coin of
    [previous_positions] that is not in [current_positions] gets one [Closed]
    event and no other event; its message is made of the coin and of the
    last [szi] (with the address and the time), and of no other field of the
    position. *)
Theorem closed_once_with_last_size (m m' : monitor) (l : list position)
    (evs : list event) (c : string) (old_position : position) :
  is_first_run m = false →
  NoDup (keys (previous_positions m)) →
  check_positions m {| assetPositions := Some l |} = (m', evs, Done) →
  dict_get c (previous_positions m) = Some old_position →
  dict_get c (build_positions l) = None →
  List.filter (on_coin c) evs = [Closed c (closed_message (address m) c old_position)]
  ∧ ∀ q, szi q = szi old_position →
         closed_message (address m) c q = closed_message (address m) c old_position.
Proof.
  intros Hfirst Hnd Hrun Hold Hnew. split.
  - destruct (check_positions_Done m l m' evs Hfirst Hrun)
      as (changes & Hscan & -> & _).
    pose proof (scan_current_on_coin _ _ _ _ c
                  (NoDup_keys_build_positions l) Hscan) as Hch.
    rewrite Hnew in Hch.
    rewrite List.filter_app, Hch, scan_closed_on_coin, Hold by done.
    by rewrite (proj2 (dict_mem_false c (build_positions l)) Hnew).
  - intros q Hq. unfold closed_message. by rewrite Hq.
Qed.

(** The example of the specification: BTC, of size 1.5, is gone from the
    current positions. *)
Lemma closed_once_with_last_size_witness :
  List.filter (on_coin "BTC")
    (check_positions (Sample.steady [("BTC", Sample.pos "BTC" "1.5")] ∅)
       (Sample.state_of [])).1.2
  = [Closed "BTC" (closed_message Sample.addr "BTC" (Sample.pos "BTC" "1.5"))]
  ∧ ∀ q, szi q = Some "1.5" →
         closed_message Sample.addr "BTC" q
         = closed_message Sample.addr "BTC" (Sample.pos "BTC" "1.5").
Proof.
  eapply (closed_once_with_last_size
            (Sample.steady [("BTC", Sample.pos "BTC" "1.5")] ∅)
            (Sample.steady [] ∅) []).
  - reflexivity.
  - apply NoDup_singleton.
  - reflexivity.
  - reflexivity.
  - reflexivity.
Defined.

(** ** Fill identifiers *)

Lemma pretty_N_go_nonempty (x : N) (s : string) :
  s ≠ "" → pretty_N_go x s ≠ "".
Proof.
  revert s. induction (N.lt_wf_0 x) as [x _ IH]; intros s Hs.
  assert (x = 0 ∨ 0 < x)%N as [->|Hx] by lia.
  - by rewrite pretty_N_go_0.
  - rewrite pretty_N_go_step by done. apply IH; [by apply N.div_lt|done].
Qed.

(** [str(n)] of an integer is never the empty string. *)
Lemma pretty_Z_nonempty (z : Z) : pretty z ≠ "".
Proof.
  destruct z as [|x|x]; [done| |done].
  unfold pretty, pretty_Z, pretty, pretty_positive, pretty, pretty_N.
  case_decide; [done|].
  rewrite pretty_N_go_step by lia. by apply pretty_N_go_nonempty.
Qed.

Lemma py_str_truthy_nonempty (t : pyval) : truthy t = true → py_str t ≠ "".
Proof.
  destruct t as [z|s]; simpl; intros H.
  - apply pretty_Z_nonempty.
  - intros ->. done.
Qed.

Lemma elem_of_fold_add_fill_id (s : string) (fills : list fill) (ids : gset string) :
  s ∈ fold_left add_fill_id fills ids ↔
  s ∈ ids ∨ ∃ f t, f ∈ fills ∧ tid f = Some t ∧ truthy t = true ∧ py_str t = s.
Proof.
  revert ids. induction fills as [|f fills IH]; intros ids; simpl.
  - split; [by left|]. intros [?|(f & t & Hf & _)]; [done|].
    by apply elem_of_nil in Hf.
  - rewrite IH. unfold add_fill_id. split.
    + intros [Hs|(f' & t & Hf' & Ht)].
      * destruct (tid f) as [t|] eqn:Et; [|by left].
        destruct (truthy t) eqn:Etr; [|by left].
        apply elem_of_union in Hs as [Hs|Hs]; [by left|].
        apply elem_of_singleton in Hs as ->.
        right. exists f, t. split_and!; try done. apply elem_of_cons. by left.
      * right. exists f', t. split; [|done]. apply elem_of_cons. by right.
    + intros [Hs|(f' & t & Hf' & Ht & Htr & Hstr)].
      * left. destruct (tid f) as [t|]; [|done].
        destruct (truthy t); [|done]. apply elem_of_union. by left.
      * apply elem_of_cons in Hf' as [->|Hf'].
        -- left. rewrite Ht, Htr. apply elem_of_union. right.
           by apply elem_of_singleton.
        -- right. by exists f', t.
Qed.

(** The members of [current_fill_ids]: the texts of the identifiers that are
    true as a condition. *)
Lemma elem_of_current_fill_ids (s : string) (fills : list fill) :
  s ∈ current_fill_ids fills ↔
  ∃ f t, f ∈ fills ∧ tid f = Some t ∧ truthy t = true ∧ py_str t = s.
Proof.
  unfold current_fill_ids. rewrite elem_of_fold_add_fill_id.
  split; [|by right]. intros [H|H]; [|done]. by apply not_elem_of_empty in H.
Qed.

Lemma empty_not_in_current_fill_ids (fills : list fill) :
  "" ∉ current_fill_ids fills.
Proof.
  intros (f & t & _ & _ & Htr & Hstr)%elem_of_current_fill_ids.
  by apply py_str_truthy_nonempty in Htr.
Qed.

(** The notification loop is a filter of the fills, in their order. *)
Lemma flat_map_notify_fill (addr : string) (new : gset string) (fills : list fill) :
  flat_map (notify_fill addr new) fills
  = map (fill_event addr) (filter (fun f => fill_id f ∈ new) fills).
Proof.
  induction fills as [|f fills IH]; simpl; [done|].
  rewrite filter_cons. unfold notify_fill at 1.
  destruct (decide (fill_id f ∈ new)); simpl; by rewrite IH.
Qed.

(** The guard [if new_fill_ids:] changes nothing: without a new identifier
    the loop notifies no fill. *)
Lemma check_fills_events (m : monitor) (fills : list fill) :
  is_first_run m = false →
  (check_fills m fills).2
  = map (fill_event (address m))
      (filter (fun f => fill_id f ∈ current_fill_ids fills ∖ previous_fills_ids m)
         fills).
Proof.
  intros Hfirst. unfold check_fills.
  destruct fills as [|f fills]; [done|]. rewrite Hfirst. cbn [snd].
  case_decide as Hnew; [|apply flat_map_notify_fill].
  rewrite Hnew. symmetry.
  generalize (f :: fills). intros l. induction l as [|x l IH]; [done|].
  rewrite filter_cons. destruct (decide (fill_id x ∈ (∅ : gset string))) as [H|_]; [|done].
  by apply not_elem_of_empty in H.
Qed.

(** ** The stored set of fill identifiers *)

(** C1, as stated, fails: with "101" seen and one current fill "102", the
    stored set becomes the identifiers of the current fills alone, so "101"
    is no longer in it, and at the next poll the fill "101" is notified
    again. *)
Lemma seen_ids_counterexample :
  let m := Sample.steady [] {[ "101" ]} in
  let m1 := (check_fills m [Sample.trade 102]).1 in
  "101" ∈ (previous_fills_ids m ∪ current_fill_ids [Sample.trade 102])
  ∧ ("101" ∉ previous_fills_ids m1)
  ∧ (check_fills m1 [Sample.trade 101]).2
    = [fill_event Sample.addr (Sample.trade 101)].
Proof.
  cbv zeta. split_and!.
  - apply elem_of_union. left.
    cbn [previous_fills_ids Sample.steady]. by apply elem_of_singleton.
  - cbn [check_fills previous_fills_ids Sample.steady fst is_first_run
           set_previous_fills_ids].
    intros (f & t & Hf & Ht & _ & Hstr)%elem_of_current_fill_ids.
    apply list_elem_of_singleton in Hf as ->.
    cbn in Ht. injection Ht as <-. vm_compute in Hstr. discriminate.
  - vm_compute. reflexivity.
Qed.

(** C1, amended: a check of a list of fills that is not empty replaces the
    stored set by the identifiers of the current fills (it is not a union:
    identifiers that are absent from the current fills are dropped), and a
    check of an empty list leaves it as it is; the fills it notifies have an
    identifier of the current fills that is not in the set stored by the
    previous check. *)
Theorem seen_ids_replaced_by_current (m : monitor) (f : fill) (fills : list fill) :
  previous_fills_ids (check_fills m (f :: fills)).1 = current_fill_ids (f :: fills)
  ∧ (check_fills m []).1 = m
  ∧ Forall (fun e => ∃ t msg, e = NewFill t msg
                      ∧ t ∈ current_fill_ids (f :: fills)
                      ∧ t ∉ previous_fills_ids m)
      (check_fills m (f :: fills)).2.
Proof.
  split_and!.
  - unfold check_fills. by destruct (is_first_run m).
  - done.
  - destruct (is_first_run m) eqn:Hfirst.
    + unfold check_fills. rewrite Hfirst. constructor.
    + rewrite check_fills_events by done.
      apply Forall_forall. intros e (g & -> & Hg)%list_elem_of_fmap.
      apply list_elem_of_filter in Hg as [Hid _].
      apply elem_of_difference in Hid as [? ?].
      by exists (fill_id g), (format_fill_message (address m) g).
Qed.

(** ** The fills notified *)

(** C5: on a check after the first one the fills notified are the current
    fills whose identifier is a current identifier that is not in the stored
    set, in the order of the input; a fill without identifier, or with the
    empty string as identifier, is neither in the stored set nor notified. *)
Theorem new_fills_notified_in_input_order (m : monitor) (fills : list fill) :
  is_first_run m = false →
  (check_fills m fills).2
  = map (fill_event (address m))
      (filter (fun f => fill_id f ∈ current_fill_ids fills ∖ previous_fills_ids m)
         fills)
  ∧ ∀ f, f ∈ fills → tid f = None ∨ tid f = Some (PStr "") →
         (fill_id f ∉ previous_fills_ids (check_fills m fills).1)
         ∧ f ∉ filter (fun f => fill_id f ∈ current_fill_ids fills ∖ previous_fills_ids m)
                 fills.
Proof.
  intros Hfirst. split; [by apply check_fills_events|].
  intros f Hf Htid.
  assert (fill_id f = "") as Hid by (unfold fill_id; by destruct Htid as [-> | ->]).
  rewrite Hid. split.
  - destruct fills as [|g fills]; [by apply elem_of_nil in Hf|].
    unfold check_fills. rewrite Hfirst. cbn [fst previous_fills_ids set_previous_fills_ids].
    apply empty_not_in_current_fill_ids.
  - intros [Hin _]%list_elem_of_filter. rewrite Hid in Hin.
    apply elem_of_difference in Hin as [Hin _].
    by apply empty_not_in_current_fill_ids in Hin.
Qed.

(** The example of the specification: "101" is stored and the fills are 101
    and 102, so that 102 alone is notified. *)
Lemma new_fills_notified_in_input_order_witness :
  is_first_run (Sample.steady [] {[ "101" ]}) = false
  ∧ (check_fills (Sample.steady [] {[ "101" ]})
       [Sample.trade 101; Sample.trade 102]).2
    = [fill_event Sample.addr (Sample.trade 102)].
Proof.
  split; [reflexivity|].
  etransitivity;
    [exact (proj1 (new_fills_notified_in_input_order
                     (Sample.steady [] {[ "101" ]})
                     [Sample.trade 101; Sample.trade 102] eq_refl))|].
  vm_compute. reflexivity.
Defined.

(** ** An unchanged poll *)

Lemma scan_current_same addr previous items :
  (∀ c p, (c, p) ∈ items → dict_get c previous = Some p) →
  (scan_current addr previous items).1 = [].
Proof.
  induction items as [|[c p] items IH]; cbn [scan_current]; intros H; [done|].
  unfold check_current. rewrite (H c p) by (apply elem_of_cons; by left).
  destruct (position_size p) as [bad|x]; [done|].
  rewrite size_changed_same.
  destruct (scan_current addr previous items) as [evs o]. cbn [fst] in *.
  apply IH. intros c' p' Hin. apply H. apply elem_of_cons. by right.
Qed.

Lemma scan_closed_none addr current previous :
  (∀ c old, (c, old) ∈ previous → dict_mem c current = true) →
  scan_closed addr current previous = [].
Proof.
  unfold scan_closed. induction previous as [|[c old] previous IH]; simpl; intros H; [done|].
  rewrite (H c old) by (apply elem_of_cons; by left). simpl.
  apply IH. intros c' old' Hin. apply (H c' old'). apply elem_of_cons. by right.
Qed.

Lemma check_positions_same m l :
  (∀ c, dict_get c (build_positions l) = dict_get c (previous_positions m)) →
  (check_positions m {| assetPositions := Some l |}).1.2 = [].
Proof.
  intros Hsame. unfold check_positions. cbn [assetPositions].
  destruct (is_first_run m); [done|].
  pose proof (scan_current_same (address m) (previous_positions m)
                (build_positions l)) as H1.
  destruct (scan_current _ _ _) as [evs [|bad]]; cbn [fst snd] in *.
  - rewrite H1, scan_closed_none; [done| |].
    + intros c old Hin. apply dict_mem_true.
      destruct (decide (c ∈ keys (build_positions l))) as [|Hn]; [done|].
      apply dict_get_None in Hn. rewrite Hsame in Hn.
      apply dict_get_None in Hn. exfalso. apply Hn.
      apply list_elem_of_fmap. by exists (c, old).
    + intros c p Hin. rewrite <- Hsame.
      apply dict_get_item; [apply NoDup_keys_build_positions | done].
  - apply H1. intros c p Hin. rewrite <- Hsame.
    apply dict_get_item; [apply NoDup_keys_build_positions | done].
Qed.


(** ** What a check changes in the monitor *)

Lemma check_positions_keeps m st :
  address (check_positions m st).1.1 = address m
  ∧ previous_fills_ids (check_positions m st).1.1 = previous_fills_ids m
  ∧ is_first_run (check_positions m st).1.1 = is_first_run m.
Proof.
  unfold check_positions. destruct (assetPositions st) as [l|]; [|done].
  destruct (is_first_run m) eqn:E; [by rewrite <- E|].
  destruct (scan_current _ _ _) as [evs [|bad]]; cbn; by rewrite ?E.
Qed.

Lemma check_fills_keeps m fills :
  address (check_fills m fills).1 = address m
  ∧ previous_positions (check_fills m fills).1 = previous_positions m
  ∧ is_first_run (check_fills m fills).1 = is_first_run m.
Proof.
  unfold check_fills. destruct fills; [done|].
  destruct (is_first_run m) eqn:E; cbn; by rewrite ?E.
Qed.

Lemma check_fills_new_fills m fills :
  Forall (fun e => is_new_fill e = true) (check_fills m fills).2.
Proof.
  destruct (is_first_run m) eqn:Hfirst.
  - unfold check_fills. destruct fills; [constructor|]. rewrite Hfirst. constructor.
  - rewrite check_fills_events by done. apply Forall_forall.
    by intros e (g & -> & _)%list_elem_of_fmap.
Qed.

Lemma coins_new_fills evs :
  Forall (fun e => is_new_fill e = true) evs → coins evs = [].
Proof. induction 1 as [|[] evs He _ IH]; simpl in *; done. Qed.

Lemma on_coin_new_fills c evs :
  Forall (fun e => is_new_fill e = true) evs → List.filter (on_coin c) evs = [].
Proof. induction 1 as [|[] evs He _ IH]; simpl in *; done. Qed.

Lemma new_fill_position_events m l :
  List.filter is_new_fill (check_positions m {| assetPositions := Some l |}).1.2 = [].
Proof.
  destruct (check_positions_events m l) as (changes & closed & -> & H1 & H2 & _).
  rewrite List.filter_app, !filter_none; [done| |].
  - eapply Forall_impl; [exact H2|]. by intros [].
  - eapply Forall_impl; [exact H1|]. by intros [].
Qed.

Lemma filter_no_new_id (new : gset string) (fills : list fill) :
  (∀ s, s ∉ new) → filter (fun f => fill_id f ∈ new) fills = [].
Proof.
  intros Hnew. induction fills as [|f fills IH]; [done|]. rewrite filter_cons.
  destruct (decide (fill_id f ∈ new)) as [H|_]; [|done]. by apply Hnew in H.
Qed.

Lemma check_positions_stored m st :
  previous_positions (check_positions m st).1.1 = previous_positions m
  ∨ ∃ l, previous_positions (check_positions m st).1.1 = build_positions l.
Proof.
  unfold check_positions. destruct (assetPositions st) as [l|]; [|by left].
  destruct (is_first_run m); [right; by exists l|].
  destruct (scan_current _ _ _) as [evs [|bad]]; [right; by exists l | by left].
Qed.

(** The keys of the stored positions stay pairwise different, as the keys of
    a Python dictionary are. *)
Lemma run_check_keeps_distinct_keys m fetched_state fetched_fills :
  NoDup (keys (previous_positions m)) →
  NoDup (keys (previous_positions (run_check m fetched_state fetched_fills).1.1)).
Proof.
  intros Hnd. unfold run_check.
  assert (NoDup (keys (previous_positions
            (match fetched_state with
             | Some st => check_positions m st
             | None => (m, [], Done)
             end).1.1))) as H1.
  { destruct fetched_state as [st|]; [|done].
    destruct (check_positions_stored m st) as [-> | [l ->]];
      [done | apply NoDup_keys_build_positions]. }
  destruct (match fetched_state with
            | Some st => check_positions m st
            | None => (m, [], Done)
            end) as [[m1 evs1] [|bad]]; cbn [fst snd] in *; [|done].
  assert (previous_positions
            (match fetched_fills with
             | Some fills => check_fills m1 fills
             | None => (m1, [])
             end).1 = previous_positions m1) as H2.
  { destruct fetched_fills as [fills|]; [|done]. apply check_fills_keeps. }
  destruct (match fetched_fills with
            | Some fills => check_fills m1 fills
            | None => (m1, [])
            end) as [m2 evs2]; cbn [fst snd] in *.
  destruct (is_first_run m2); cbn; by rewrite H2.
Qed.

(** ** An unchanged poll, continued *)

(** C9: on a check after the first one, when the current positions are those
    stored (the same value under every coin) and the identifiers of the
    current fills are the stored set, neither detector emits an event, and
    [run_check] emits none. *)
Theorem unchanged_poll_is_silent (m : monitor) (l : list position) (fills : list fill) :
  is_first_run m = false →
  (∀ c, dict_get c (build_positions l) = dict_get c (previous_positions m)) →
  current_fill_ids fills = previous_fills_ids m →
  (check_positions m {| assetPositions := Some l |}).1.2 = []
  ∧ (check_fills m fills).2 = []
  ∧ (run_check m (Some {| assetPositions := Some l |}) (Some fills)).1.2 = [].
Proof.
  intros Hfirst Hsame Hids.
  assert (∀ m0, is_first_run m0 = false →
                previous_fills_ids m0 = previous_fills_ids m →
                (check_fills m0 fills).2 = []) as Hfills.
  { intros m0 H0 Hprev. rewrite check_fills_events by done.
    rewrite filter_no_new_id; [done|]. intros s.
    rewrite Hprev, <- Hids. by intros [? ?]%elem_of_difference. }
  pose proof (check_positions_same m l Hsame) as Hpos.
  split_and!; [done | by apply Hfills |].
  unfold run_check.
  pose proof (check_positions_keeps m {| assetPositions := Some l |}) as (_ & Hk1 & Hk2).
  destruct (check_positions m _) as [[m1 evs1] [|bad]]; cbn [fst snd] in *; [|done].
  pose proof (check_fills_keeps m1 fills) as (_ & _ & Hk3).
  pose proof (Hfills m1 (eq_trans Hk2 Hfirst) Hk1) as Hev2.
  destruct (check_fills m1 fills) as [m2 evs2]. cbn [fst snd] in *.
  rewrite Hk3, Hk2, Hfirst. cbn [fst snd]. by rewrite Hpos, Hev2.
Qed.

(** Twice the same poll: BTC of size 1.5 and the fill 101. *)
Lemma unchanged_poll_is_silent_witness :
  (check_positions (Sample.steady [("BTC", Sample.pos "BTC" "1.5")] {[ "101" ]})
     (Sample.state_of [Sample.pos "BTC" "1.5"])).1.2 = []
  ∧ (check_fills (Sample.steady [("BTC", Sample.pos "BTC" "1.5")] {[ "101" ]})
       [Sample.trade 101]).2 = []
  ∧ (run_check (Sample.steady [("BTC", Sample.pos "BTC" "1.5")] {[ "101" ]})
       (Some (Sample.state_of [Sample.pos "BTC" "1.5"]))
       (Some [Sample.trade 101])).1.2 = [].
Proof.
  apply (unchanged_poll_is_silent
           (Sample.steady [("BTC", Sample.pos "BTC" "1.5")] {[ "101" ]})
           [Sample.pos "BTC" "1.5"] [Sample.trade 101]).
  - reflexivity.
  - intros c. reflexivity.
  - vm_compute. reflexivity.
Defined.

(** ** The first check *)

(** C4: the first check emits no position event and no trade event. From
    the state set up by [__init__], with both fetches successful, it sends
    the start-up message alone and stores the current positions and the
    identifiers of the current fills; and whatever is stored, a detector
    that runs with [is_first_run] set emits nothing and stores what it was
    given (the fill detector keeps the stored set when the list of fills is
    empty). *)
Theorem first_check_only_sets_the_baseline (addr : string) (l : list position)
    (fills : list fill) (d : dict position) (ids : gset string) :
  run_check (init addr) (Some {| assetPositions := Some l |}) (Some fills)
  = ({| address := addr; previous_positions := build_positions l;
        previous_fills_ids := current_fill_ids fills; is_first_run := false |},
     [Started (started_message addr)], Done)
  ∧ check_positions
      {| address := addr; previous_positions := d; previous_fills_ids := ids;
         is_first_run := true |} {| assetPositions := Some l |}
    = ({| address := addr; previous_positions := build_positions l;
          previous_fills_ids := ids; is_first_run := true |}, [], Done)
  ∧ check_fills
      {| address := addr; previous_positions := d; previous_fills_ids := ids;
         is_first_run := true |} fills
    = ({| address := addr; previous_positions := d;
          previous_fills_ids :=
            match fills with [] => ids | _ :: _ => current_fill_ids fills end;
          is_first_run := true |}, []).
Proof.
  split_and!.
  - unfold run_check, check_positions, init. cbn [assetPositions is_first_run].
    by destruct fills.
  - done.
  - by destruct fills.
Qed.

(** ** A failed fetch *)

(** C7: when the fetch of the user state fails, the check returns (so that
    the loop of [start] goes on with the next poll), [previous_positions] is
    unchanged and no position event is emitted, whatever the fetch of the
    fills returns. When the fetch of the fills fails, [previous_fills_ids]
    is unchanged and no trade event is emitted, whatever the fetch of the
    user state returns; the check then ends as the position check does. *)
Theorem failed_fetch_skips_its_channel (m : monitor)
    (fetched_state : option user_state) (fetched_fills : option (list fill))
    (rest : list (option user_state * option (list fill))) :
  ((run_check m None fetched_fills).2 = Done
   ∧ previous_positions (run_check m None fetched_fills).1.1 = previous_positions m
   ∧ coins (run_check m None fetched_fills).1.2 = []
   ∧ start m ((None, fetched_fills) :: rest)
     = let '(m1, evs1, _) := run_check m None fetched_fills in
       let '(m2, evs2, o) := start m1 rest in (m2, evs1 ++ evs2, o))
  ∧ (previous_fills_ids (run_check m fetched_state None).1.1 = previous_fills_ids m
     ∧ List.filter is_new_fill (run_check m fetched_state None).1.2 = []
     ∧ (run_check m fetched_state None).2
       = match fetched_state with
         | Some st => (check_positions m st).2
         | None => Done
         end).
Proof.
  split.
  - assert (∃ m1 evs1, run_check m None fetched_fills = (m1, evs1, Done)
                       ∧ previous_positions m1 = previous_positions m
                       ∧ coins evs1 = []) as (m1 & evs1 & Hrun & Hprev & Hcoins).
    { unfold run_check.
      destruct fetched_fills as [fills|].
      - pose proof (check_fills_keeps m fills) as (_ & Hk & _).
        pose proof (check_fills_new_fills m fills) as Hnf.
        destruct (check_fills m fills) as [m2 evs2]. cbn [fst snd] in *.
        destruct (is_first_run m2); eexists _, _; (split; [reflexivity|]).
        + split; [done|]. unfold coins. rewrite app_nil_l, omap_app.
          fold (coins evs2). by rewrite coins_new_fills.
        + split; [done|]. rewrite app_nil_l. by apply coins_new_fills.
      - destruct (is_first_run m); eexists _, _; (split; [reflexivity|]); done. }
    cbn [start]. rewrite Hrun. cbn [fst snd]. done.
  - unfold run_check. destruct fetched_state as [st|].
    + pose proof (check_positions_keeps m st) as (_ & Hk & _).
      assert (List.filter is_new_fill (check_positions m st).1.2 = []) as Hnf.
      { destruct st as [[l|]]; [apply new_fill_position_events | done]. }
      destruct (check_positions m st) as [[m1 evs1] [|bad]]; cbn [fst snd] in *.
      * destruct (is_first_run m1); cbn [fst snd]; split_and!; try done.
        by rewrite app_nil_l, List.filter_app, Hnf.
        by rewrite app_nil_r.
      * done.
    + destruct (is_first_run m); done.
Qed.

(** ** The end of the first run *)

Lemma run_check_keeps_steady m fetched_state fetched_fills :
  is_first_run m = false →
  is_first_run (run_check m fetched_state fetched_fills).1.1 = false.
Proof.
  intros Hfirst. unfold run_check.
  assert (∃ m1 evs1 o1,
            match fetched_state with
            | Some st => check_positions m st
            | None => (m, [], Done)
            end = (m1, evs1, o1) ∧ is_first_run m1 = false)
    as (m1 & evs1 & o1 & -> & H1).
  { destruct fetched_state as [st|]; [|by eexists _, _, _].
    pose proof (check_positions_keeps m st) as (_ & _ & Hk).
    destruct (check_positions m st) as [[m1 evs1] o1].
    eexists _, _, _. split; [done|]. cbn in Hk. congruence. }
  destruct o1 as [|bad]; [|done].
  assert (∃ m2 evs2,
            match fetched_fills with
            | Some fills => check_fills m1 fills
            | None => (m1, [])
            end = (m2, evs2) ∧ is_first_run m2 = false)
    as (m2 & evs2 & -> & H2).
  { destruct fetched_fills as [fills|]; [|by eexists _, _].
    pose proof (check_fills_keeps m1 fills) as (_ & _ & Hk).
    destruct (check_fills m1 fills) as [m2 evs2].
    eexists _, _. split; [done|]. cbn in Hk. congruence. }
  by rewrite H2.
Qed.

(** C10: a check that starts with [is_first_run] set returns with it
    cleared, whatever the two fetches gave, and no later check sets it
    again. When both fetches of the first check failed, nothing was stored:
    the next check whose fetch of the user state succeeds compares with the
    empty dictionary and, when it returns, has emitted one [Opened] event
    for every current position. *)
Theorem first_run_ends_after_one_check (m : monitor)
    (fetched_state : option user_state) (fetched_fills : option (list fill)) :
  is_first_run m = true →
  ∃ m1 evs1,
    run_check m fetched_state fetched_fills = (m1, evs1, Done)
    ∧ is_first_run m1 = false
    ∧ (∀ fs ff, is_first_run (run_check m1 fs ff).1.1 = false)
    ∧ (fetched_state = None → fetched_fills = None →
       previous_positions m = [] →
       evs1 = [Started (started_message (address m))]
       ∧ ∀ l ff m2 evs2 c p,
           run_check m1 (Some {| assetPositions := Some l |}) ff = (m2, evs2, Done) →
           dict_get c (build_positions l) = Some p →
           ∃ msg, format_position_message (address m) c p "opened" = inr msg
                  ∧ List.filter (on_coin c) evs2 = [Opened c msg]).
Proof.
  intros Hfirst.
  assert (∃ m1 evs1, run_check m fetched_state fetched_fills = (m1, evs1, Done)
                     ∧ is_first_run m1 = false) as (m1 & evs1 & Hrun & H1).
  { unfold run_check.
    assert (∃ m0 evs0,
              match fetched_state with
              | Some st => check_positions m st
              | None => (m, [], Done)
              end = (m0, evs0, Done)) as (m0 & evs0 & ->).
    { destruct fetched_state as [[[l|]]|]; unfold check_positions;
        cbn [assetPositions]; rewrite ?Hfirst; by eexists _, _. }
    destruct (match fetched_fills with
              | Some fills => check_fills m0 fills
              | None => (m0, [])
              end) as [m2 evs2].
    destruct (is_first_run m2) eqn:E2; by eexists _, _. }
  exists m1, evs1. split_and!; try done.
  - intros fs ff. by apply run_check_keeps_steady.
  - intros -> -> Hprev. unfold run_check in Hrun. rewrite Hfirst in Hrun.
    cbn in Hrun. injection Hrun as <- <-. split; [done|].
    intros l ff m2 evs2 c p Hrun2 Hc.
    unfold run_check in Hrun2.
    set (m1 := set_is_first_run m false) in *.
    destruct (check_positions m1 {| assetPositions := Some l |})
      as [[ma evsa] [|bad]] eqn:Ea; [|done].
    apply check_positions_Done in Ea as (changes & Hscan & -> & ->); [|done].
    pose proof (scan_current_on_coin _ _ _ _ c
                  (NoDup_keys_build_positions l) Hscan) as Hch.
    rewrite Hc in Hch. cbn [m1 set_is_first_run address previous_positions] in Hch.
    rewrite Hprev in Hch. unfold check_current in Hch. cbn [dict_get] in Hch.
    destruct (format_position_message (address m) c p "opened") as [|msg]; [done|].
    exists msg. split; [done|].
    assert (∃ mb evsb,
              match ff with
              | Some fills =>
                  check_fills (set_previous_positions m1 (build_positions l)) fills
              | None => (set_previous_positions m1 (build_positions l), [])
              end = (mb, evsb)
              ∧ is_first_run mb = false
              ∧ List.filter (on_coin c) evsb = []) as (mb & evsb & Hff & Hmb & Hevsb).
    { destruct ff as [fills|]; [|by eexists _, _].
      pose proof (check_fills_keeps (set_previous_positions m1 (build_positions l))
                    fills) as (_ & _ & Hk).
      pose proof (check_fills_new_fills
                    (set_previous_positions m1 (build_positions l)) fills) as Hnf.
      destruct (check_fills _ fills) as [mb evsb]. cbn [fst snd] in *.
      eexists _, _. split_and!; [done|done|]. by apply on_coin_new_fills. }
    rewrite Hff, Hmb in Hrun2. injection Hrun2 as <- <-.
    rewrite !List.filter_app, Hevsb, app_nil_r.
    cbn [m1 set_is_first_run address previous_positions].
    rewrite Hprev. unfold scan_closed. cbn [flat_map]. rewrite app_nil_r.
    by injection Hch as <-.
Qed.

(** Both fetches of the first check fail; the second check finds BTC, of
    size 1.5, and announces it as opened. *)
Lemma first_run_ends_after_one_check_witness :
  is_first_run (init Sample.addr) = true
  ∧ run_check (init Sample.addr) None None
    = (Sample.steady [] ∅, [Started (started_message Sample.addr)], Done)
  ∧ ∃ msg,
      List.filter (on_coin "BTC")
        (run_check (Sample.steady [] ∅)
           (Some (Sample.state_of [Sample.pos "BTC" "1.5"])) None).1.2
      = [Opened "BTC" msg].
Proof.
  split; [reflexivity|]. split; [reflexivity|].
  destruct (first_run_ends_after_one_check (init Sample.addr) None None eq_refl)
    as (m1 & evs1 & Hrun & _ & _ & H).
  injection Hrun as <- <-.
  destruct (H eq_refl eq_refl eq_refl) as [_ H2].
  destruct (H2 [Sample.pos "BTC" "1.5"] None _ _ "BTC" (Sample.pos "BTC" "1.5")
              eq_refl eq_refl) as (msg & _ & Hmsg).
  exists msg. exact Hmsg.
Defined.

(** The poll after a first check whose fetches failed: BTC of size 1.5 is
    announced as opened. *)
Lemma opened_after_failed_first_check :
  ∃ msg,
    (start (init Sample.addr)
       [(None, None); (Some (Sample.state_of [Sample.pos "BTC" "1.5"]), None)]).1.2
    = [Started (started_message Sample.addr); Opened "BTC" msg].
Proof. eexists. vm_compute. reflexivity. Qed.

(** ** Absent fields of a position *)

(** C2 does not hold of the code: for a position without [szi] the
    formatter evaluates [float('N/A')], which raises [ValueError]; no message
    is made. In a check after the first one the exception leaves
    [check_positions] and [run_check], and ends the loop of [start]. *)
Theorem format_position_message_raises_without_szi (addr c action : string)
    (entry : option string) (lev : option leverage_info)
    (value pnl : option string) :
  format_position_message addr c
    {| coin := c; szi := None; entryPx := entry; leverage := lev;
       positionValue := value; unrealizedPnl := pnl |} action
  = inl "N/A"
  ∧ check_positions (Sample.steady [] ∅) (Sample.state_of [Sample.unsized "BTC"])
    = (Sample.steady [] ∅, [], Raised "N/A")
  ∧ start (init Sample.addr)
      [(Some (Sample.state_of []), None);
       (Some (Sample.state_of [Sample.unsized "BTC"]), None)]
    = (Sample.steady [] ∅,
       [Started (started_message Sample.addr); Failed "N/A"], Raised "N/A").
Proof. split_and!; vm_compute; reflexivity. Qed.

(** With a size that [float()] reads, the other absent fields are printed as
    [N/A]. *)
Lemma absent_fields_render_marker :
  format_position_message Sample.addr "BTC" (Sample.pos "BTC" "-2.0") "opened"
  = inr ([ Text ("üîî <b>Position OPENED</b>" +:+ Str.nl +:+ Str.nl);
           Text ("<b>Asset:</b> BTC" +:+ Str.nl);
           Text ("<b>Side:</b> SHORT" +:+ Str.nl);
           Text "<b>Size:</b> "; Repr 2%float; Text Str.nl;
           Text ("<b>Entry Price:</b> $N/A" +:+ Str.nl);
           Text ("<b>Leverage:</b> N/Ax" +:+ Str.nl);
           Text ("<b>Position Value:</b> $N/A" +:+ Str.nl);
           Text ("<b>Unrealized PnL:</b> $N/A" +:+ Str.nl) ]
         ++ footer Sample.addr Now).
Proof. vm_compute. reflexivity. Qed.

(** * Further properties of the monitor *)

(** ** Opened positions *)

(** X1: on a check after the first one that returns, a coin of
    [current_positions] that is not in [previous_positions] gets one [Opened]
    event, with the message of [format_position_message] for "opened", and
    no other event. *)
Theorem opened_once (m m' : monitor) (l : list position) (evs : list event)
    (c : string) (p : position) :
  is_first_run m = false →
  check_positions m {| assetPositions := Some l |} = (m', evs, Done) →
  dict_get c (previous_positions m) = None →
  dict_get c (build_positions l) = Some p →
  ∃ msg, format_position_message (address m) c p "opened" = inr msg
         ∧ List.filter (on_coin c) evs = [Opened c msg].
Proof.
  intros Hfirst Hrun Hold Hnew.
  destruct (check_positions_Done m l m' evs Hfirst Hrun)
    as (changes & Hscan & -> & _).
  pose proof (scan_current_on_coin _ _ _ _ c
                (NoDup_keys_build_positions l) Hscan) as Hch.
  rewrite Hnew in Hch.
  rewrite List.filter_app, scan_closed_on_coin_present, app_nil_r
    by (unfold dict_mem; by rewrite Hnew).
  unfold check_current in Hch. rewrite Hold in Hch.
  destruct (format_position_message _ _ _ _) as [|msg]; [done|].
  exists msg. by simplify_eq.
Qed.

(** The example of the specification: nothing stored, BTC of size 1.5. *)
Lemma opened_once_witness :
  ∃ msg, format_position_message Sample.addr "BTC" (Sample.pos "BTC" "1.5") "opened"
         = inr msg
         ∧ List.filter (on_coin "BTC")
             (check_positions (Sample.steady [] ∅)
                (Sample.state_of [Sample.pos "BTC" "1.5"])).1.2
           = [Opened "BTC" msg].
Proof.
  eapply (opened_once (Sample.steady [] ∅)
            (Sample.steady [("BTC", Sample.pos "BTC" "1.5")] ∅)
            [Sample.pos "BTC" "1.5"]).
  - reflexivity.
  - vm_compute. reflexivity.
  - reflexivity.
  - reflexivity.
Defined.

(** X2: a position check, whether it returns or raises, emits no event about
    a coin that is neither in [previous_positions] nor in
    [current_positions]. *)
Theorem no_event_about_other_coins (m m' : monitor) (l : list position)
    (evs : list event) (o : outcome) (c : string) :
  check_positions m {| assetPositions := Some l |} = (m', evs, o) →
  dict_get c (previous_positions m) = None →
  dict_get c (build_positions l) = None →
  List.filter (on_coin c) evs = [].
Proof.
  intros Hrun Hold Hnew.
  destruct (check_positions_events m l)
    as (changes & closed & Hevs & H1 & H2 & H3 & H4).
  rewrite Hrun in Hevs. cbn [fst snd] in Hevs. subst evs.
  apply dict_get_None in Hold, Hnew.
  assert (∀ evs0 ks, coins evs0 `sublist_of` ks → c ∉ ks →
                     List.filter (on_coin c) evs0 = []) as Hnone.
  { intros evs0 ks Hsub Hc. apply filter_none.
    apply List.Forall_forall. intros e He. unfold on_coin.
    destruct (event_coin e) as [c'|] eqn:Ec; [|done].
    destruct (String.eqb_spec c c') as [->|]; [|done].
    exfalso. apply Hc. eapply elem_of_sublist; [|exact Hsub].
    unfold coins. apply list_elem_of_omap. exists e.
    split; [by apply list_elem_of_In | done]. }
  by rewrite List.filter_app, (Hnone _ _ H3 Hnew), (Hnone _ _ H4 Hold).
Qed.

Lemma no_event_about_other_coins_witness :
  List.filter (on_coin "SOL")
    (check_positions (Sample.steady [("BTC", Sample.pos "BTC" "1.5")] ∅)
       (Sample.state_of [Sample.pos "ETH" "2.0"])).1.2 = [].
Proof.
  eapply (no_event_about_other_coins
            (Sample.steady [("BTC", Sample.pos "BTC" "1.5")] ∅) _
            [Sample.pos "ETH" "2.0"] _ _ "SOL");
    [vm_compute; reflexivity | reflexivity | reflexivity].
Defined.

(** ** An empty or a missing list of positions *)

(** X3: after the first check, a user state whose [assetPositions] is the
    empty list closes every stored position, one [Closed] event per stored
    item in the order of the dictionary, and stores the empty dictionary;
    a user state without the key [assetPositions] changes nothing and emits
    nothing. *)
Theorem empty_positions_close_all (addr : string) (d : dict position)
    (ids : gset string) :
  check_positions
    {| address := addr; previous_positions := d; previous_fills_ids := ids;
       is_first_run := false |} {| assetPositions := Some [] |}
  = ({| address := addr; previous_positions := []; previous_fills_ids := ids;
        is_first_run := false |},
     map (closed_event addr) d, Done)
  ∧ check_positions
      {| address := addr; previous_positions := d; previous_fills_ids := ids;
         is_first_run := false |} {| assetPositions := None |}
    = ({| address := addr; previous_positions := d; previous_fills_ids := ids;
          is_first_run := false |}, [], Done).
Proof.
  split; [|done].
  unfold check_positions, set_previous_positions, scan_closed. cbn.
  do 2 f_equal. induction d as [|[c old] d IH]; [done|].
  cbn. by rewrite IH.
Qed.

(** ** The dictionary of the current positions *)

(** X4: when a coin occurs several times in [assetPositions], the position
    kept under it in [current_positions] is the last one, and a coin that
    does not occur has no entry. *)
Theorem build_positions_keeps_last (l : list position) (c : string) :
  dict_get c (build_positions l)
  = List.find (fun p => String.eqb c (coin p)) (rev l).
Proof.
  unfold build_positions.
  induction l as [|p l IH] using rev_ind; [done|].
  rewrite fold_left_app, rev_app_distr. cbn [fold_left rev app List.find].
  destruct (String.eqb_spec c (coin p)) as [->|Hne].
  - apply dict_get_set_eq.
  - rewrite dict_get_set_ne by done. exact IH.
Qed.

(** ** The same poll twice *)

Lemma check_fills_twice (m : monitor) (fills : list fill) :
  is_first_run m = false →
  previous_fills_ids m = current_fill_ids fills ∨ fills = [] →
  (check_fills m fills).2 = [].
Proof.
  intros Hfirst [Hids| ->]; [|done].
  rewrite check_fills_events by done. rewrite filter_no_new_id; [done|].
  intros s. rewrite Hids. by intros [? ?]%elem_of_difference.
Qed.

Lemma check_fills_stored (m : monitor) (fills : list fill) :
  previous_fills_ids (check_fills m fills).1 = current_fill_ids fills ∨ fills = [].
Proof.
  destruct fills as [|f fills]; [by right|]. left.
  unfold check_fills. by destruct (is_first_run m).
Qed.

(** X5: when a check has returned, a second check with the same fetched
    data emits nothing: the first one has stored what it saw. This holds of
    the first check of a run as of the later ones. *)
Theorem same_poll_twice_is_silent (m m1 : monitor) (evs : list event)
    (fetched_state : option user_state) (fetched_fills : option (list fill)) :
  run_check m fetched_state fetched_fills = (m1, evs, Done) →
  (run_check m1 fetched_state fetched_fills).1.2 = [].
Proof.
  intros Hrun.
  (* what the first check leaves *)
  assert (is_first_run m1 = false
          ∧ (∀ l, fetched_state = Some {| assetPositions := Some l |} →
                  previous_positions m1 = build_positions l)
          ∧ (∀ fills, fetched_fills = Some fills →
                      previous_fills_ids m1 = current_fill_ids fills ∨ fills = []))
    as (Hflag & Hpos & Hids).
  { unfold run_check in Hrun.
    set (r1 := match fetched_state with
               | Some st => check_positions m st
               | None => (m, [], Done)
               end) in *.
    assert (∀ l, fetched_state = Some {| assetPositions := Some l |} →
                 r1.2 = Done → previous_positions r1.1.1 = build_positions l) as Hp.
    { intros l -> Ho. subst r1. unfold check_positions in *. cbn [assetPositions] in *.
      destruct (is_first_run m); [done|].
      destruct (scan_current _ _ _) as [evs0 [|bad]]; done. }
    destruct r1 as [[ma evsa] [|bad]]; [|done]. cbn [fst snd] in Hp.
    set (r2 := match fetched_fills with
               | Some fills => check_fills ma fills
               | None => (ma, [])
               end) in *.
    assert (previous_positions r2.1 = previous_positions ma) as Hkp.
    { subst r2. destruct fetched_fills as [fills|]; [|done]. apply check_fills_keeps. }
    assert (∀ fills, fetched_fills = Some fills →
                     previous_fills_ids r2.1 = current_fill_ids fills ∨ fills = [])
      as Hi.
    { intros fills ->. subst r2. apply check_fills_stored. }
    destruct r2 as [mb evsb]. cbn [fst snd] in *.
    destruct (is_first_run mb) eqn:Eb; injection Hrun as <- <-;
      cbn [is_first_run previous_positions previous_fills_ids set_is_first_run];
      (split_and!; [done | intros l Hl; rewrite Hkp; by apply Hp | done]). }
  (* the second check *)
  unfold run_check.
  set (r1 := match fetched_state with
             | Some st => check_positions m1 st
             | None => (m1, [], Done)
             end).
  assert (r1.1.2 = [] ∧ is_first_run r1.1.1 = false
          ∧ previous_fills_ids r1.1.1 = previous_fills_ids m1) as (He1 & Hf1 & Hi1).
  { subst r1. destruct fetched_state as [[[l|]]|]; [|done|done].
    pose proof (check_positions_keeps m1 {| assetPositions := Some l |})
      as (_ & Hk1 & Hk2).
    split_and!; [|congruence|done].
    apply check_positions_same. intros c. by rewrite (Hpos l eq_refl). }
  destruct r1 as [[ma evsa] [|bad]]; cbn [fst snd] in *; [|done].
  set (r2 := match fetched_fills with
             | Some fills => check_fills ma fills
             | None => (ma, [])
             end).
  assert (r2.2 = [] ∧ is_first_run r2.1 = false) as (He2 & Hf2).
  { subst r2. destruct fetched_fills as [fills|]; [|done].
    pose proof (check_fills_keeps ma fills) as (_ & _ & Hk).
    split; [|congruence].
    apply check_fills_twice; [done|]. rewrite Hi1. by apply Hids. }
  destruct r2 as [mb evsb]. cbn [fst snd] in *.
  rewrite Hf2. cbn [fst snd]. by rewrite He1, He2.
Qed.

(** The first check of a run, then the same data again. *)
Lemma same_poll_twice_is_silent_witness :
  (run_check
     {| address := Sample.addr;
        previous_positions := [("BTC", Sample.pos "BTC" "1.5")];
        previous_fills_ids := {[ "101" ]}; is_first_run := false |}
     (Some (Sample.state_of [Sample.pos "BTC" "1.5"]))
     (Some [Sample.trade 101])).1.2 = [].
Proof.
  eapply (same_poll_twice_is_silent (init Sample.addr)).
  vm_compute. reflexivity.
Defined.

(** ** A check that raises *)



(** ** The order of the events of a check *)

Lemma run_check_events (m : monitor)
    (fetched_state : option user_state) (fetched_fills : option (list fill)) :
  ∃ position_events trade_events,
    (run_check m fetched_state fetched_fills).1.2
    = position_events ++ trade_events
      ++ (if is_first_run m then [Started (started_message (address m))] else [])
    ∧ Forall (fun e => is_position_event e = true) position_events
    ∧ Forall (fun e => is_new_fill e = true) trade_events.
Proof.
  unfold run_check.
  set (r1 := match fetched_state with
             | Some st => check_positions m st
             | None => (m, [], Done)
             end).
  assert (Forall (fun e => is_position_event e = true) r1.1.2
          ∧ is_first_run r1.1.1 = is_first_run m
          ∧ address r1.1.1 = address m
          ∧ (is_first_run m = true → r1.2 = Done)) as (Hev & Hfl & Had & Hdone).
  { subst r1. destruct fetched_state as [[[l|]]|];
      [|by split_and!; try constructor..].
    pose proof (check_positions_keeps m {| assetPositions := Some l |})
      as (Hk0 & _ & Hk2).
    split_and!; try done.
    - destruct (check_positions_events m l) as (changes & closed & -> & H1 & H2 & _).
      apply Forall_app. split.
      + eapply Forall_impl; [exact H1|]. intros e He. unfold is_position_event.
        by rewrite He.
      + eapply Forall_impl; [exact H2|]. intros e He. unfold is_position_event.
        rewrite He. by destruct (is_change e).
    - intros Hfirst. unfold check_positions. cbn [assetPositions].
      by rewrite Hfirst. }
  destruct r1 as [[ma evsa] [|bad]]; cbn [fst snd] in *.
  - set (r2 := match fetched_fills with
               | Some fills => check_fills ma fills
               | None => (ma, [])
               end).
    assert (Forall (fun e => is_new_fill e = true) r2.2
            ∧ is_first_run r2.1 = is_first_run ma
            ∧ address r2.1 = address ma) as (Hev2 & Hfl2 & Had2).
    { subst r2. destruct fetched_fills as [fills|]; [|by split_and!; try constructor].
      pose proof (check_fills_keeps ma fills) as (? & _ & ?).
      split_and!; try done. apply check_fills_new_fills. }
    destruct r2 as [mb evsb]. cbn [fst snd] in *.
    rewrite Hfl2, Hfl, Had2, Had. exists evsa, evsb.
    destruct (is_first_run m); cbn [fst snd]; [done|].
    by rewrite app_nil_r.
  - exists evsa, []. destruct (is_first_run m) eqn:Hfirst.
    + by specialize (Hdone eq_refl).
    + cbn. rewrite app_nil_r. split_and!; [done|done|constructor].
Qed.

(** X7: the events of [run_check] are the position events, then the trade
    events, then the start-up message, which is there when the check began
    with [is_first_run] set (such a check always returns). *)
Theorem events_of_a_check_in_order (m : monitor)
    (fetched_state : option user_state) (fetched_fills : option (list fill)) :
  ∃ position_events trade_events,
    (run_check m fetched_state fetched_fills).1.2
    = position_events ++ trade_events
      ++ (if is_first_run m then [Started (started_message (address m))] else [])
    ∧ Forall (fun e => is_position_event e = true) position_events
    ∧ Forall (fun e => is_new_fill e = true) trade_events.
Proof. apply run_check_events. Qed.

(** ** The loop of [start] *)

(** X8: the loop over two runs of polls is the loop over the first run
    followed, when that one returned, by the loop over the second from the
    monitor it left; when the first run ended with an exception, the polls
    after it are never checked. *)
Theorem start_app (m : monitor)
    (polls rest : list (option user_state * option (list fill))) :
  start m (polls ++ rest)
  = match start m polls with
    | (m1, evs1, Done) =>
        let '(m2, evs2, o) := start m1 rest in (m2, evs1 ++ evs2, o)
    | (m1, evs1, Raised bad) => (m1, evs1, Raised bad)
    end.
Proof.
  revert m. induction polls as [|[fs ff] polls IH]; intros m.
  - cbn [app start]. by destruct (start m rest) as [[m2 evs2] o].
  - cbn [app start].
    destruct (run_check m fs ff) as [[m1 evs1] [|bad]]; [|done].
    rewrite IH. destruct (start m1 polls) as [[m2 evs2] [|bad]]; [|done].
    destruct (start m2 rest) as [[m3 evs3] o]. by rewrite app_assoc.
Qed.

Lemma start_steady (m : monitor)
    (polls : list (option user_state * option (list fill))) :
  is_first_run m = false →
  is_first_run (start m polls).1.1 = false
  ∧ Forall (fun e => is_started e = false) (start m polls).1.2.
Proof.
  revert m. induction polls as [|[fs ff] polls IH]; intros m Hfirst.
  - split; [done | constructor].
  - cbn [start].
    pose proof (run_check_keeps_steady m fs ff Hfirst) as Hk.
    destruct (run_check_events m fs ff) as (ep & et & Hev & Hp & Ht).
    rewrite Hfirst, app_nil_r in Hev.
    assert (Forall (fun e => is_started e = false) (run_check m fs ff).1.2) as Hns.
    { rewrite Hev. apply Forall_app. split.
      - eapply Forall_impl; [exact Hp|]. by intros [].
      - eapply Forall_impl; [exact Ht|]. by intros []. }
    destruct (run_check m fs ff) as [[m1 evs1] [|bad]]; cbn [fst snd] in *.
    + destruct (IH m1 Hk) as [IH1 IH2].
      destruct (start m1 polls) as [[m2 evs2] o]. cbn [fst snd] in *.
      split; [done|]. by apply Forall_app.
    + split; [done|]. apply Forall_app. split; [done|]. by repeat constructor.
Qed.

(** The first check of a run sends the start-up message alone and clears
    [is_first_run]. *)
Lemma first_check_state (addr : string) (fetched_state : option user_state)
    (fetched_fills : option (list fill)) :
  ∃ m1, run_check (init addr) fetched_state fetched_fills
        = (m1, [Started (started_message addr)], Done)
        ∧ is_first_run m1 = false.
Proof.
  unfold run_check, init, check_positions.
  destruct fetched_state as [[[l|]]|]; cbn [assetPositions is_first_run];
    destruct fetched_fills as [[|f fills]|]; by eexists.
Qed.

(** X9: in a run that begins with the state of [__init__] and has at least
    one poll, the start-up message is the first thing sent and is sent
    once, whatever the fetches return. *)
Theorem started_once_and_first (addr : string)
    (fetched_state : option user_state) (fetched_fills : option (list fill))
    (polls : list (option user_state * option (list fill))) :
  ∃ evs,
    (start (init addr) ((fetched_state, fetched_fills) :: polls)).1.2
    = Started (started_message addr) :: evs
    ∧ Forall (fun e => is_started e = false) evs.
Proof.
  cbn [start].
  destruct (first_check_state addr fetched_state fetched_fills) as (m1 & -> & Hm1).
  pose proof (start_steady m1 polls Hm1) as [_ Hns].
  destruct (start m1 polls) as [[m2 evs2] o]. cbn [fst snd] in *.
  by exists evs2.
Qed.

(** X10: [start] sends the error message when a check raised and only
    then, and it is the last thing it sends. *)
Theorem failed_last_iff_raised (m : monitor)
    (polls : list (option user_state * option (list fill))) :
  match (start m polls).2 with
  | Done => Forall (fun e => is_failed e = false) (start m polls).1.2
  | Raised bad =>
      ∃ evs, (start m polls).1.2 = evs ++ [Failed bad]
             ∧ Forall (fun e => is_failed e = false) evs
  end.
Proof.
  revert m. induction polls as [|[fs ff] polls IH]; intros m; [constructor|].
  cbn [start].
  destruct (run_check_events m fs ff) as (ep & et & Hev & Hp & Ht).
  assert (Forall (fun e => is_failed e = false) (run_check m fs ff).1.2) as Hnf.
  { rewrite Hev. apply Forall_app. split; [|apply Forall_app; split].
    - eapply Forall_impl; [exact Hp|]. by intros [].
    - eapply Forall_impl; [exact Ht|]. by intros [].
    - destruct (is_first_run m); by repeat constructor. }
  destruct (run_check m fs ff) as [[m1 evs1] [|bad]]; cbn [fst snd] in *.
  - specialize (IH m1). destruct (start m1 polls) as [[m2 evs2] [|bad]];
      cbn [fst snd] in *.
    + by apply Forall_app.
    + destruct IH as (evs & -> & Hevs). exists (evs1 ++ evs).
      split; [by rewrite app_assoc | by apply Forall_app].
  - by exists evs1.
Qed.

(** ** Fills after a first check without fills *)

(** X11: when the first check of a run got no fills (the fetch failed, or
    the list was empty), nothing is stored, and the next check notifies every
    fill of its list that has an identifier true as a condition: the whole
    list the exchange returns, not only the trades made since the start. *)
Theorem all_fills_notified_after_empty_first_check (addr : string)
    (fetched_state : option user_state) (first_fills : option (list fill))
    (fills : list fill) (f : fill) (t : pyval) :
  first_fills = None ∨ first_fills = Some [] →
  f ∈ fills → tid f = Some t → truthy t = true →
  fill_event addr f
  ∈ (check_fills (run_check (init addr) fetched_state first_fills).1.1 fills).2.
Proof.
  intros Hfirst Hf Ht Htr.
  assert (∃ d, (run_check (init addr) fetched_state first_fills).1.1
               = {| address := addr; previous_positions := d;
                    previous_fills_ids := ∅; is_first_run := false |})
    as [d ->].
  { unfold run_check, init, check_positions.
    destruct fetched_state as [[[l|]]|]; cbn [assetPositions is_first_run];
      destruct Hfirst as [-> | ->]; by eexists. }
  rewrite check_fills_events by done. cbn [address previous_fills_ids].
  apply list_elem_of_fmap. exists f. split; [done|].
  apply list_elem_of_filter. split; [|done].
  apply elem_of_difference. split; [|apply not_elem_of_empty].
  apply elem_of_current_fill_ids. exists f, t.
  unfold fill_id. by rewrite Ht.
Qed.

(** The fetch of the fills fails at the first check; the next check finds
    two fills and notifies both. *)
Lemma all_fills_notified_after_empty_first_check_witness :
  (check_fills (run_check (init Sample.addr) None None).1.1
     [Sample.trade 101; Sample.trade 102]).2
  = [fill_event Sample.addr (Sample.trade 101);
     fill_event Sample.addr (Sample.trade 102)]
  ∧ fill_event Sample.addr (Sample.trade 102)
    ∈ (check_fills (run_check (init Sample.addr) None None).1.1
         [Sample.trade 101; Sample.trade 102]).2.
Proof.
  split; [vm_compute; reflexivity|].
  apply (all_fills_notified_after_empty_first_check Sample.addr None None
           [Sample.trade 101; Sample.trade 102] (Sample.trade 102) (PInt 102)).
  - by left.
  - apply elem_of_cons. right. apply elem_of_cons. by left.
  - reflexivity.
  - reflexivity.
Defined.

(** ** When a position message can be made *)


(** ** The abbreviated address *)








(** ** The identifier of a notified fill *)

(** X14: a fill that [check_fills] notifies has a [tid], whose text is not
    empty: the [N/A] that [format_fill_message] keeps for a fill without
    [tid] is never sent. *)
Theorem notified_fill_has_identifier (m : monitor) (fills : list fill) (e : event) :
  e ∈ (check_fills m fills).2 →
  ∃ f t, f ∈ fills ∧ tid f = Some t ∧ py_str t ≠ ""
         ∧ e = NewFill (py_str t) (format_fill_message (address m) f).
Proof.
  intros He. destruct (is_first_run m) eqn:Hfirst.
  { unfold check_fills in He. rewrite Hfirst in He.
    destruct fills; by apply elem_of_nil in He. }
  rewrite check_fills_events in He by done.
  apply list_elem_of_fmap in He as (f & -> & Hf).
  apply list_elem_of_filter in Hf as [Hid Hf].
  apply elem_of_difference in Hid as [Hid _].
  unfold fill_event, fill_id in *.
  destruct (tid f) as [t|] eqn:Ht.
  - exists f, t. split_and!; try done.
    intros Hempty. rewrite Hempty in Hid.
    by apply empty_not_in_current_fill_ids in Hid.
  - by apply empty_not_in_current_fill_ids in Hid.
Qed.

Lemma notified_fill_has_identifier_witness :
  ∃ f t, f ∈ [Sample.trade 101; Sample.trade 102] ∧ tid f = Some t
         ∧ py_str t ≠ ""
         ∧ fill_event Sample.addr (Sample.trade 102)
           = NewFill (py_str t) (format_fill_message Sample.addr f).
Proof.
  apply (notified_fill_has_identifier (Sample.steady [] {[ "101" ]})
           [Sample.trade 101; Sample.trade 102]).
  vm_compute. apply list_elem_of_singleton. reflexivity.
Defined.

(** ** The two channels *)



(** * Start-up *)

(** X16: [main] builds and starts the monitor exactly when the text of the
    interval is one that [int()] reads and both the bot token and the chat
    identifier are set to a string that is not empty; the token is looked at
    first, so that with both missing the error logged is about the token. *)
Theorem main_starts_monitor_iff (py_int : string → option Z)
    (environ : gmap string string) :
  ((∃ s, main py_int environ = Monitor s)
   ↔ (∃ n, py_int (default "300" (environ !! "CHECK_INTERVAL")) = Some n)
     ∧ (∃ token, environ !! "TELEGRAM_BOT_TOKEN" = Some token ∧ token ≠ "")
     ∧ (∃ chat, environ !! "TELEGRAM_CHAT_ID" = Some chat ∧ chat ≠ ""))
  ∧ ((∃ n, py_int (default "300" (environ !! "CHECK_INTERVAL")) = Some n) →
     environ !! "TELEGRAM_BOT_TOKEN" = None
     ∨ environ !! "TELEGRAM_BOT_TOKEN" = Some "" →
     main py_int environ
     = Exit 1 "TELEGRAM_BOT_TOKEN environment variable not set").
Proof.
  unfold main. split.
  - split.
    + intros [s H].
      destruct (py_int _) as [n|]; [|done].
      destruct (environ !! "TELEGRAM_BOT_TOKEN") as [[|a token]|]; try done.
      destruct (environ !! "TELEGRAM_CHAT_ID") as [[|b chat]|]; try done.
      split_and!; eexists; done.
    + intros ([n ->] & (token & -> & Ht) & (chat & -> & Hc)).
      destruct token; [done|]. destruct chat; [done|]. by eexists.
  - intros [n ->] [-> | ->]; done.
Qed.

Lemma main_starts_monitor_iff_witness :
  main Sample.decimal_int
    {[ "TELEGRAM_BOT_TOKEN" := "123:abc"; "TELEGRAM_CHAT_ID" := "42" ]}
  = Monitor {| monitored_address := "0xcb58b8f5ec6d47985f0728465c25a08ef9ad2c7b";
               bot_token := "123:abc"; chat_id := "42"; use_testnet := false;
               check_interval := 300 |}
  ∧ main Sample.decimal_int ∅
    = Exit 1 "TELEGRAM_BOT_TOKEN environment variable not set".
Proof.
  split; [vm_compute; reflexivity|].
  apply (proj2 (main_starts_monitor_iff Sample.decimal_int ∅)).
  - exists 300. vm_compute. reflexivity.
  - left. reflexivity.
Defined.

(** X17: the interval is read before the credentials are looked at: when
    [int()] raises on the text of [CHECK_INTERVAL], [main] ends with that
    [ValueError] whether or not the token and the chat identifier are set,
    and logs no error about them. *)
Theorem invalid_interval_comes_first (py_int : string → option Z)
    (environ : gmap string string) (text : string) :
  environ !! "CHECK_INTERVAL" = Some text →
  py_int text = None →
  main py_int environ = InvalidInterval text
  ∧ main py_int (delete "TELEGRAM_BOT_TOKEN" environ) = InvalidInterval text
  ∧ main py_int (delete "TELEGRAM_CHAT_ID" environ) = InvalidInterval text.
Proof.
  intros Henv Hint.
  assert (∀ env, env !! "CHECK_INTERVAL" = Some text →
                 main py_int env = InvalidInterval text) as Hmain.
  { intros env Henv'. unfold main. rewrite Henv'. simpl. by rewrite Hint. }
  split_and!; apply Hmain; [done | |]; by rewrite lookup_delete_ne.
Qed.

Lemma invalid_interval_comes_first_witness :
  main Sample.decimal_int {[ "CHECK_INTERVAL" := "5m" ]} = InvalidInterval "5m"
  ∧ main Sample.decimal_int
      (delete "TELEGRAM_BOT_TOKEN" {[ "CHECK_INTERVAL" := "5m" ]})
    = InvalidInterval "5m"
  ∧ main Sample.decimal_int
      (delete "TELEGRAM_CHAT_ID" {[ "CHECK_INTERVAL" := "5m" ]})
    = InvalidInterval "5m".
Proof.
  apply (invalid_interval_comes_first Sample.decimal_int
           {[ "CHECK_INTERVAL" := "5m" ]} "5m"); reflexivity.
Defined.

(** * The tolerance of the size comparison *)

Lemma SFabs_binary_round_aux (s s' : bool) (m e : Z) (l : location) :
  SFabs (binary_round_aux prec emax s m e l)
  = SFabs (binary_round_aux prec emax s' m e l).
Proof.
  unfold binary_round_aux.
  destruct (shr_fexp prec emax m e l) as [mrs1 e1].
  destruct (shr_fexp prec emax _ e1 loc_Exact) as [mrs2 e2].
  destruct (shr_m mrs2); [done | | done].
  by destruct (e2 <=? emax - prec).
Qed.

Lemma SFabs_binary_normalize_opp (m e : Z) :
  SFabs (binary_normalize prec emax (- m) e false)
  = SFabs (binary_normalize prec emax m e false).
Proof.
  destruct m as [|p|p]; [done| |];
    [change (- Z.pos p) with (Z.neg p) | change (- Z.neg p) with (Z.pos p)];
    unfold binary_normalize, binary_round;
    destruct (shl_align p e _) as [mz ez]; apply SFabs_binary_round_aux.
Qed.

Lemma SFabs_SFsub_comm (a b : spec_float) :
  SFabs (SFsub prec emax a b) = SFabs (SFsub prec emax b a).
Proof.
  destruct a as [sa|sa| |sa ma ea], b as [sb|sb| |sb mb eb];
    try (destruct sa, sb; reflexivity); try (destruct sa; reflexivity);
    try (destruct sb; reflexivity); try reflexivity.
  unfold SFsub. cbv zeta. rewrite (Z.min_comm eb ea).
  rewrite <- SFabs_binary_normalize_opp. f_equal. f_equal. lia.
Qed.

(** X18: whether a size has changed does not depend on which of the two
    sizes is the old one, and a size that is not a number never counts as
    changed, on either side. *)
Theorem size_changed_symmetric (x y : float) :
  size_changed x y = size_changed y x
  ∧ size_changed x nan = false
  ∧ size_changed nan y = false.
Proof.
  unfold size_changed. rewrite !ltb_spec, !abs_spec, !sub_spec.
  unfold SF64sub. split_and!.
  - by rewrite SFabs_SFsub_comm.
  - change (Prim2SF nan) with S754_nan. by destruct (Prim2SF x).
  - done.
Qed.
